(** * guiding-vqg: the training wrapper [TrainVQG] of [main.py]

    A shallow embedding of the training and evaluation control code of
    [main.py] (class [TrainVQG]): the cyclical KL-annealing loss schedule
    ([calculate_losses]), the warm-up switch of [training_step], the
    validation and test accumulators, and the decoding / filtering /
    best-score bookkeeping of [decode_and_print].

    Conventions of the embedding.
    - The iteration counter and [total_training_steps] are Python [int]s
      ([Z]).  The Python [float]s of the annealing schedule ([cycle_num],
      [mod], [temp]) are binary64 values, kept as the rationals they
      denote: every operation on them rounds to nearest, ties to even
      ([Float64.round_nearest]), and raises [OverflowError] where Python
      does.  The 0-dimensional tensors (losses, scores) and [np.exp] are
      idealised as real numbers ([R]).  [num_warmup_steps] is parsed with
      [type=float] and is only ever compared with the integer counter, so
      it is kept as a [pyfloat] (a rational, an infinity or NaN) whose
      comparison computes.
    - Python strings are sequences of code points below 256 ([string]).
    - The attributes of [self] form the record [TrainVQG]; every method is
      a computation in the monad [M] that threads this record and may
      raise a Python exception.  A raised exception keeps the mutations
      made before it, as in Python.
    - The neural model, the tokenizer, the metric libraries and numpy are
      external collaborators: they are Section variables. *)

From Stdlib Require Import Reals Lra QArith Qround Qabs Qreals.
From stdpp Require Import gmap strings list fin_maps pretty.

Local Open Scope Z_scope.

(** ** Python strings: [str.split()] and [" ".join] *)

Module PyStr.

(** [str.isspace] on the code points below 256: TAB..CR, FS..US, SPACE,
    NEL (U+0085) and NBSP (U+00A0). *)
Definition is_space (c : Ascii.ascii) : bool :=
  let n := Ascii.nat_of_ascii c in
  ((9 <=? n)%nat && (n <=? 13)%nat) || ((28 <=? n)%nat && (n <=? 32)%nat)
  || (n =? 133)%nat || (n =? 160)%nat.

(** [flush cur acc]: close the word being read, if there is one. *)
Definition flush (cur : string) (acc : list string) : list string :=
  match cur with
  | EmptyString => acc
  | _ => cur :: acc
  end.

(** [split_go cur s]: the words of [s], where [cur] holds the characters
    of the word being read, in order. *)
Fixpoint split_go (cur : string) (s : string) : list string :=
  match s with
  | EmptyString => flush cur []
  | String c s' =>
      if is_space c then flush cur (split_go EmptyString s')
      else split_go (cur +:+ String c EmptyString) s'
  end.

(** [s.split()] with no argument: maximal runs of non-space characters. *)
Definition split (s : string) : list string := split_go EmptyString s.

(** [sep.join(l)] *)
Definition join (sep : string) (l : list string) : string :=
  String.concat sep l.

(** [l.index(x)]: the first position of [x]; [None] stands for the
    [ValueError] Python raises when [x] does not occur. *)
Fixpoint index (x : string) (l : list string) : option nat :=
  match l with
  | [] => None
  | y :: l' => if decide (y = x) then Some 0%nat else S <$> index x l'
  end.

End PyStr.

(** ** The tokenizer interface used by [TrainVQG] *)

Record BertTokenizer (TokenIds : Type) := {
  decode : TokenIds -> string;
  all_special_tokens : list string;
  sep_token : string
}.
Arguments decode {TokenIds}.
Arguments all_special_tokens {TokenIds}.
Arguments sep_token {TokenIds}.

(** [TrainVQG.filter_special_tokens].  The test [sep_token in list] and
    the following [list.index(sep_token)] are one lookup here: [index]
    answers [Some] exactly when the membership test succeeds. *)
Definition filter_special_tokens {TokenIds} (tokenizer : BertTokenizer TokenIds)
    (decoded_sentence_string : string) : string :=
  let decoded_sentence_list := PyStr.split decoded_sentence_string in
  let special_tokens := all_special_tokens tokenizer in
  let decoded_sentence_list :=
    match PyStr.index (sep_token tokenizer) decoded_sentence_list with
    | Some index_of_end => take index_of_end decoded_sentence_list
    | None => decoded_sentence_list
    end in
  let filtered :=
    foldl (fun filtered token =>
             if bool_decide (token ∈ special_tokens) then filtered
             else filtered ++ [token])
          [] decoded_sentence_list in
  PyStr.join " " filtered.

(** ** Numbers *)

(** The value of a Python [float] as far as an order comparison with an
    [int] can tell: a rational, an infinity, or NaN ([argparse] with
    [type=float] accepts all of them). *)
Inductive pyfloat :=
  | Finite (q : Q)
  | PosInf
  | NegInf
  | NaN.

(** [x < i] for a float [x] and an int [i] (Python compares exactly). *)
Definition float_lt_int (x : pyfloat) (i : Z) : bool :=
  match x with
  | Finite q => negb (Qle_bool (inject_Z i) q)
  | NegInf => true
  | PosInf | NaN => false
  end.

(** ** Exceptions, events, and the state of a [TrainVQG] object *)

Inductive exn :=
  | IndexError
  | ValueError
  | ZeroDivisionError
  | OverflowError
  | KeyError.

(** What [torch.optim.Adam(self.parameters(), lr=...)] constructs: a new
    optimizer, with no moment estimates yet. *)
Inductive optimizer :=
  | Adam (lr : R).

(** The constructor of [torch.optim.Adam] checks its learning rate first
    ([if not 0.0 <= lr: raise ValueError]). *)
Definition torch_optim_Adam (lr : R) : exn + optimizer :=
  if Rlt_dec lr 0 then inl ValueError else inr (Adam lr).

(** The effects on the outside world that the claims speak about:
    [self.log(name, value)] and the construction of an optimizer. *)
Inductive event :=
  | Log (name : string) (value : R)
  | NewOptimizer (o : optimizer).

(** The parsed command line ([args]); only the fields [TrainVQG] reads. *)
Record Args := {
  lr : R;
  num_warmup_steps : pyfloat;
  total_training_steps : Z
}.

(** The attributes of [self].  [test_scores] maps a metric to the list of
    its per-batch scores, as [test_step] keeps it; [test_end], which
    overwrites each list with its mean, is outside this development. *)
Record TrainVQG := {
  args : Args;
  latent_transformer : bool;
  model_latent_transformer : bool;   (* self.model.latent_transformer *)
  iter : Z;
  test_scores : gmap string (list R);
  val_losses : gmap string (list R);
  bleus : list (Z * R);
  msjs : list (Z * R);
  fbds : list (Z * R);
  trace : list event                 (* oldest event first *)
}.

Definition set_latent_transformer (b : bool) (s : TrainVQG) : TrainVQG :=
  {| args := args s; latent_transformer := b;
     model_latent_transformer := model_latent_transformer s; iter := iter s;
     test_scores := test_scores s; val_losses := val_losses s;
     bleus := bleus s; msjs := msjs s; fbds := fbds s; trace := trace s |}.

Definition set_model_latent_transformer (b : bool) (s : TrainVQG) : TrainVQG :=
  {| args := args s; latent_transformer := latent_transformer s;
     model_latent_transformer := b; iter := iter s;
     test_scores := test_scores s; val_losses := val_losses s;
     bleus := bleus s; msjs := msjs s; fbds := fbds s; trace := trace s |}.

Definition set_iter (i : Z) (s : TrainVQG) : TrainVQG :=
  {| args := args s; latent_transformer := latent_transformer s;
     model_latent_transformer := model_latent_transformer s; iter := i;
     test_scores := test_scores s; val_losses := val_losses s;
     bleus := bleus s; msjs := msjs s; fbds := fbds s; trace := trace s |}.

Definition set_test_scores (m : gmap string (list R)) (s : TrainVQG) : TrainVQG :=
  {| args := args s; latent_transformer := latent_transformer s;
     model_latent_transformer := model_latent_transformer s; iter := iter s;
     test_scores := m; val_losses := val_losses s;
     bleus := bleus s; msjs := msjs s; fbds := fbds s; trace := trace s |}.

Definition set_val_losses (m : gmap string (list R)) (s : TrainVQG) : TrainVQG :=
  {| args := args s; latent_transformer := latent_transformer s;
     model_latent_transformer := model_latent_transformer s; iter := iter s;
     test_scores := test_scores s; val_losses := m;
     bleus := bleus s; msjs := msjs s; fbds := fbds s; trace := trace s |}.

Definition set_bleus (l : list (Z * R)) (s : TrainVQG) : TrainVQG :=
  {| args := args s; latent_transformer := latent_transformer s;
     model_latent_transformer := model_latent_transformer s; iter := iter s;
     test_scores := test_scores s; val_losses := val_losses s;
     bleus := l; msjs := msjs s; fbds := fbds s; trace := trace s |}.

Definition set_msjs (l : list (Z * R)) (s : TrainVQG) : TrainVQG :=
  {| args := args s; latent_transformer := latent_transformer s;
     model_latent_transformer := model_latent_transformer s; iter := iter s;
     test_scores := test_scores s; val_losses := val_losses s;
     bleus := bleus s; msjs := l; fbds := fbds s; trace := trace s |}.

Definition set_fbds (l : list (Z * R)) (s : TrainVQG) : TrainVQG :=
  {| args := args s; latent_transformer := latent_transformer s;
     model_latent_transformer := model_latent_transformer s; iter := iter s;
     test_scores := test_scores s; val_losses := val_losses s;
     bleus := bleus s; msjs := msjs s; fbds := l; trace := trace s |}.

Definition emit (e : event) (s : TrainVQG) : TrainVQG :=
  {| args := args s; latent_transformer := latent_transformer s;
     model_latent_transformer := model_latent_transformer s; iter := iter s;
     test_scores := test_scores s; val_losses := val_losses s;
     bleus := bleus s; msjs := msjs s; fbds := fbds s;
     trace := trace s ++ [e] |}.

(** ** The monad of methods: state of [self], plus exceptions *)

Definition M (A : Type) : Type := TrainVQG -> TrainVQG * (exn + A).

Definition ret {A} (a : A) : M A := fun s => (s, inr a).

Definition bind {A B} (m : M A) (k : A -> M B) : M B :=
  fun s =>
    match m s with
    | (s', inr a) => k a s'
    | (s', inl e) => (s', inl e)
    end.

Definition raise {A} (e : exn) : M A := fun s => (s, inl e).
Definition get : M TrainVQG := fun s => (s, inr s).
Definition modify (f : TrainVQG -> TrainVQG) : M unit := fun s => (f s, inr tt).

(** A pure computation that may raise, run inside a method. *)
Definition lift {A} (r : exn + A) : M A := fun s => (s, r).

Declare Scope py_scope.
Delimit Scope py_scope with py.
Notation "x <~ m ; k" := (bind m (fun x => k))
  (at level 20, m at level 100, k at level 200, only parsing) : py_scope.
Notation "' pat <~ m ; k" := (bind m (fun x => match x with pat => k end))
  (at level 20, pat pattern, m at level 100, k at level 200, only parsing)
  : py_scope.
Notation "m ;; k" := (bind m (fun _ => k))
  (at level 100, k at level 200, only parsing, right associativity)
  : py_scope.

(** [for x in l: body x] *)
Fixpoint for_each {A} (l : list A) (body : A -> M unit) : M unit :=
  match l with
  | [] => ret tt
  | x :: l' => (body x ;; for_each l' body)%py
  end.

(** The final state and the outcome of a call. *)
Definition state_after {A} (r : TrainVQG * (exn + A)) : TrainVQG := r.1.
Definition outcome {A} (r : TrainVQG * (exn + A)) : exn + A := r.2.

(** [m] keeps the property [P] of the state, also when it raises. *)
Definition preserves {A} (P : TrainVQG -> Prop) (m : M A) : Prop :=
  forall s, P s -> P (state_after (m s)).

(** ** Python containers *)

(** [l[i]] for [i >= 0]. *)
Definition py_getitem {A} (l : list A) (i : nat) : exn + A :=
  match l !! i with
  | Some x => inr x
  | None => inl IndexError
  end.

(** A [dict] whose order of insertion matters: an association list with
    one entry per key.  [d[k] = v]: *)
Fixpoint dict_set {K V} `{EqDecision K} (k : K) (v : V) (d : list (K * V))
    : list (K * V) :=
  match d with
  | [] => [(k, v)]
  | (k', v') :: d' =>
      if decide (k' = k) then (k, v) :: d' else (k', v') :: dict_set k v d'
  end.

(** [d.update(new)] *)
Definition dict_update {K V} `{EqDecision K} (d new : list (K * V))
    : list (K * V) :=
  foldl (fun d kv => dict_set kv.1 kv.2 d) d new.

(** [max(l, key=itemgetter(1))]: the first entry whose second component
    is largest; [ValueError] on the empty list. *)
Fixpoint max_from (best : Z * R) (l : list (Z * R)) : Z * R :=
  match l with
  | [] => best
  | x :: l' => max_from (if Rlt_dec best.2 x.2 then x else best) l'
  end.

Definition py_max (l : list (Z * R)) : exn + (Z * R) :=
  match l with
  | [] => inl ValueError
  | x :: l' => inr (max_from x l')
  end.

(** ** Binary64 arithmetic *)

Module Float64.

Definition pow2 (k : Z) : Z := 2 ^ Z.max k 0.

(** The integer nearest to [n / d] for [0 < d], ties to the even one. *)
Definition round_half_even (n d : Z) : Z :=
  let q := n / d in
  match 2 * (n mod d) ?= d with
  | Lt => q
  | Gt => q + 1
  | Eq => if Z.even q then q else q + 1
  end.

(** The [k] with [2 ^ k <= a / d < 2 ^ (k + 1)], for positive [a], [d]. *)
Definition floor_log2 (a d : Z) : Z :=
  let k := Z.log2 a - Z.log2 d in
  if d * pow2 k <=? a * pow2 (- k) then k else k - 1.

(** [a / d] rounded to 53 significant bits, or to a multiple of
    [2 ^ -1074] below the normal range. *)
Definition round_pos (a d : Z) : Q :=
  let e := Z.max (floor_log2 a d - 52) (-1074) in
  let m := round_half_even (a * pow2 (- e)) (d * pow2 e) in
  Qred (Qmake (m * pow2 e) (Z.to_pos (pow2 (- e)))).

Definition round_nearest (q : Q) : Q :=
  match Qnum (Qred q) with
  | Z0 => 0%Q
  | Zpos a => round_pos (Zpos a) (Zpos (Qden (Qred q)))
  | Zneg a => Qopp (round_pos (Zpos a) (Zpos (Qden (Qred q))))
  end.

(** A numerator of fewer than 54 bits over 1 or 4 is a binary64 value
    already. *)
Definition fits53 (q : Q) : bool :=
  (Z.abs (Qnum q) <? 2 ^ 53)
  && ((Qden q =? 1)%positive || (Qden q =? 4)%positive).

(** The binary64 value of an exact result below the overflow threshold. *)
Definition to_double (q : Q) : Q :=
  if fits53 q then q else round_nearest q.

(** Exact results of this magnitude or more round to [2 ^ 1024], which
    is no binary64 value. *)
Definition overflow_threshold : Z := 2 ^ 1024 - 2 ^ 970.

Definition overflows (q : Q) : bool :=
  Qle_bool (inject_Z overflow_threshold) (Qabs q).

End Float64.

(** ** Float arithmetic that can raise *)

(** [float(i)], the conversion Python applies to the [int] operand of a
    mixed operation. *)
Definition py_float_of_int (i : Z) : exn + Q :=
  if Float64.overflows (inject_Z i) then inl OverflowError
  else inr (Float64.to_double (inject_Z i)).

(** The exact quotient of two ints. *)
Definition int_quotient (a b : Z) : Q :=
  if 0 <? b then Qmake a (Z.to_pos b) else Qmake (- a) (Z.to_pos (- b)).

(** [a / b] on ints: the exact quotient, rounded once. *)
Definition py_int_truediv (a b : Z) : exn + Q :=
  if b =? 0 then inl ZeroDivisionError
  else if Float64.overflows (int_quotient a b) then inl OverflowError
  else inr (Float64.to_double (int_quotient a b)).

(** The integer part of a rational, towards zero. *)
Definition Qtrunc (q : Q) : Z :=
  if Qle_bool 0 q then Qfloor q else Qceiling q.

Definition Qneg (q : Q) : bool := negb (Qle_bool 0 q).

(** [x % y] on floats: the exact remainder of C's [fmod], which has the
    sign of [x]; when its sign differs from that of [y], [y] is added
    (and that sum is rounded). *)
Definition py_float_mod (x y : Q) : exn + Q :=
  if Qeq_bool y 0 then inl ZeroDivisionError
  else
    let m := (x - y * inject_Z (Qtrunc (x / y)))%Q in
    if negb (Qeq_bool m 0) && negb (Bool.eqb (Qneg y) (Qneg m))
    then inr (Float64.to_double (m + y))
    else inr m.

(** [i % y] for an int [i] and a float [y]: [i] is converted first. *)
Definition py_int_mod_float (i : Z) (y : Q) : exn + Q :=
  match py_float_of_int i with
  | inl e => inl e
  | inr x => py_float_mod x y
  end.

(** [x / y] on floats (the quotients taken here are at most 1 in
    magnitude). *)
Definition py_truediv (x y : Q) : exn + Q :=
  if Qeq_bool y 0 then inl ZeroDivisionError
  else inr (Float64.to_double (x / y)).

(** ** [TrainVQG.__init__] *)

Definition init (a : Args) : TrainVQG :=
  {| args := a;
     latent_transformer := false;
     model_latent_transformer := false;
     iter := 0;
     test_scores := ∅;
     val_losses :=
       <["total loss" := []]> (<["rec loss" := []]> (<["kl loss" := []]> ∅));
     bleus := [];
     msjs := [];
     fbds := [];
     trace := [] |}.

(** ** [TrainVQG.calculate_losses] *)

(** The default of the parameter [r]. *)
Definition r_default : R := (5 / 10)%R.

Definition calculate_losses (loss : R) (kld : option R) (r : R)
    : M (R * R * R) :=
  (self <~ get ;
   match kld with
   | None =>
       (* total_loss, loss_rec, loss_kl = loss, loss, torch.tensor(0) *)
       ret (loss, loss, 0%R)
   | Some kld =>
       cycle_num <~ lift (py_int_truediv (total_training_steps (args self)) 4) ;
       mod_ <~ lift (py_int_mod_float (iter self) cycle_num) ;
       temp <~ lift (py_truediv mod_ cycle_num) ;
       let beta :=
         if Rle_dec (Q2R temp) r then (1 / (1 + exp (- Q2R temp)))%R
         else 1%R in
       ret ((loss + beta * kld)%R, loss, kld)
   end)%py.

(** [temp] of [calculate_losses], as a function of
    [total_training_steps] and [self.iter]. *)
Definition phase (total_training_steps iter : Z) : exn + Q :=
  match py_int_truediv total_training_steps 4 with
  | inl e => inl e
  | inr cycle_num =>
      match py_int_mod_float iter cycle_num with
      | inl e => inl e
      | inr mod_ => py_truediv mod_ cycle_num
      end
  end.

(** ** [TrainVQG.configure_optimizers] *)

Definition configure_optimizers : M optimizer :=
  (self <~ get ;
   o <~ lift (torch_optim_Adam (lr (args self))) ;
   modify (emit (NewOptimizer o)) ;;
   ret o)%py.

Definition log (name : string) (value : R) : M unit :=
  modify (emit (Log name value)).

(** ** Batches and the external collaborators *)

(** The element types of a batch: token-id sequences, tensors, image ids. *)
Class DataTypes := {
  TokenIds : Type;
  Tensor : Type;
  ImageId : Type
}.

(** A batch of the data loader (a dict with these keys). *)
Record Batch `{DataTypes} := {
  images : Tensor;
  image_ids : list ImageId;
  question_ids : list TokenIds;
  question_attention_masks : Tensor;
  input_ids : list TokenIds;
  input_attention_masks : Tensor;
  rcnn_features : Tensor;
  rcnn_locations : Tensor
}.

(** What [TrainVQG] consumes as black boxes. *)
Class Collaborators `{DataTypes} := {
  (** [self.tokenizer] *)
  tokenizer : BertTokenizer TokenIds;
  (** [self.model(...)], under the model's current [latent_transformer]
      flag: the reconstruction loss and the KL term, or [None]. *)
  VQGModel_forward : bool -> Batch -> R * option R;
  (** [self.model.decode_greedy(...)]: one decoded string per example. *)
  decode_greedy : bool -> Batch -> list string;
  (** [self.nlge.compute_metrics(ref_list, hyp_list)]: a dict of scores. *)
  compute_metrics : list (list string) -> list string -> list (string * R);
  (** [MultisetDistances(references).get_jaccard_score(sentences)]: a
      dict keyed by the n-gram order. *)
  get_jaccard_score : list string -> list string -> list (Z * R);
  (** [np.round(x, decimals)] *)
  np_round : R -> Z -> R
}.

Section Methods.

Context {DT : DataTypes} {W : Collaborators}.

(** [np.round(np.mean(v) * 100, 4)] for a scalar score [v] (the mean of
    a scalar is the scalar). *)
Definition rounded (v : R) : R := np_round (v * 100)%R 4.

(** ** [TrainVQG.training_step] *)

(** The state after the warm-up test at the head of [training_step]. *)
Definition switched (s : TrainVQG) : TrainVQG :=
  if float_lt_int (num_warmup_steps (args s)) (iter s) then
    let s' := set_model_latent_transformer true (set_latent_transformer true s) in
    match torch_optim_Adam (lr (args s)) with
    | inr o => emit (NewOptimizer o) s'
    | inl _ => s'
    end
  else s.

(** The exception the warm-up test raises, if any: it comes from the
    construction of the optimizer, after both flags are set. *)
Definition switch_error (s : TrainVQG) : option exn :=
  if float_lt_int (num_warmup_steps (args s)) (iter s) then
    match torch_optim_Adam (lr (args s)) with
    | inl e => Some e
    | inr _ => None
    end
  else None.

Definition training_step (batch : Batch) (batch_idx : Z) : M R :=
  (self <~ get ;
   (if float_lt_int (num_warmup_steps (args self)) (iter self) then
      modify (set_latent_transformer true) ;;
      modify (set_model_latent_transformer true) ;;
      _ <~ configure_optimizers ;      (* reset the momentum *)
      ret tt
    else ret tt) ;;
   self <~ get ;
   let '(loss, kld) := VQGModel_forward (model_latent_transformer self) batch in
   '(total_loss, loss_rec, loss_kl) <~ calculate_losses loss kld r_default ;
   log "total train loss" total_loss ;;
   log "rec train loss" loss_rec ;;
   log "kl train loss" loss_kl ;;
   self <~ get ;
   modify (set_iter (iter self + 1)) ;;
   ret total_loss)%py.

(** ** [TrainVQG.validation_step] *)

(** [self.val_losses[k].append(x)] *)
Definition val_losses_append (k : string) (x : R) : M unit :=
  (self <~ get ;
   match val_losses self !! k with
   | Some l => modify (set_val_losses (<[k := l ++ [x]]> (val_losses self)))
   | None => raise KeyError
   end)%py.

Definition validation_step (batch : Batch) (batch_idx : Z) : M Batch :=
  (self <~ get ;
   let '(loss, kld) := VQGModel_forward (model_latent_transformer self) batch in
   '(total_loss, loss_rec, loss_kl) <~ calculate_losses loss kld r_default ;
   log "total val loss" total_loss ;;
   log "rec val loss" loss_rec ;;
   log "kl val loss" loss_kl ;;
   val_losses_append "total loss" total_loss ;;
   val_losses_append "rec loss" loss_rec ;;
   val_losses_append "kl loss" loss_kl ;;
   ret batch)%py.

(** ** [TrainVQG.decode_and_print] *)

(** What the loop prints for one of the first [print_lim] examples. *)
Record printed := {
  p_image_id : ImageId;
  p_category : string;
  p_kw_inputs : string;
  p_generated : string;
  p_real_ques : string
}.

(** The body of [for i, sentence in enumerate(decoded_sentences)]. *)
Definition decode_example (print_lim : Z) (batch : Batch)
    (decoded_inputs decoded_questions : list string)
    (i : nat) (sentence : string)
    : exn + (string * string * option printed) :=
  match py_getitem decoded_inputs i with
  | inl e => inl e
  | inr decoded_input =>
      let curr_input := filter_special_tokens tokenizer decoded_input in
      let generated_q := filter_special_tokens tokenizer sentence in
      match py_getitem decoded_questions i with
      | inl e => inl e
      | inr decoded_question =>
          let real_q := filter_special_tokens tokenizer decoded_question in
          if Z.of_nat i <? print_lim then
            match py_getitem (image_ids batch) i with
            | inl e => inl e
            | inr image_id =>
                match py_getitem (PyStr.split curr_input) 0 with
                | inl e => inl e
                | inr category =>
                    inr (real_q, generated_q,
                         Some {| p_image_id := image_id;
                                 p_category := category;
                                 p_kw_inputs :=
                                   PyStr.join " " (drop 1 (PyStr.split curr_input));
                                 p_generated := generated_q;
                                 p_real_ques := real_q |})
                end
            end
          else inr (real_q, generated_q, None)
      end
  end.

(** The whole loop, from example [i] on; [gts] and [preds] are the lists
    built so far. *)
Fixpoint decode_examples (print_lim : Z) (batch : Batch)
    (decoded_inputs decoded_questions : list string)
    (i : nat) (decoded_sentences : list string) (gts preds : list string)
    : exn + (list string * list string) :=
  match decoded_sentences with
  | [] => inr (gts, preds)
  | sentence :: rest =>
      match decode_example print_lim batch decoded_inputs decoded_questions
                           i sentence with
      | inl e => inl e
      | inr (real_q, generated_q, _) =>
          decode_examples print_lim batch decoded_inputs decoded_questions
                          (S i) rest (gts ++ [real_q]) (preds ++ [generated_q])
      end
  end.

(** [new_msj_distance]: the keys of [msj_distance] prefixed with [msj_]. *)
Definition prefix_msj (msj_distance : list (Z * R)) : list (string * R) :=
  foldl (fun d kv => dict_set ("msj_" +:+ pretty kv.1) kv.2 d) [] msj_distance.

(** The body of the [if val:] loop for one score. *)
Definition record_score (kv : string * R) : M unit :=
  (self <~ get ;
   let rounded_val := rounded kv.2 in
   if decide (kv.1 = "Bleu_4") then
     modify (set_bleus (bleus self ++ [(iter self, rounded_val)]))
   else if decide (kv.1 = "msj_4") then
     modify (set_msjs (msjs self ++ [(iter self, rounded_val)]))
   else if decide (kv.1 = "fbd") then
     modify (set_fbds (fbds self ++ [(iter self, rounded_val)]))
   else ret tt)%py.

Definition decode_and_print (batch : Batch) (print_lim : Z) (val : bool)
    : M (list (string * R)) :=
  (self <~ get ;
   let decoded_questions := map (decode tokenizer) (question_ids batch) in
   let decoded_inputs := map (decode tokenizer) (input_ids batch) in
   let decoded_sentences :=
     decode_greedy (model_latent_transformer self) batch in
   '(gts, preds) <~ lift (decode_examples print_lim batch decoded_inputs
                            decoded_questions 0 decoded_sentences [] []) ;
   let scores := compute_metrics [gts] preds in
   let msj_distance := get_jaccard_score gts preds in
   let scores := dict_update scores (prefix_msj msj_distance) in
   (if val then for_each scores record_score else ret tt) ;;
   self <~ get ;
   max_bleu <~ lift (py_max (bleus self)) ;
   max_msjs <~ lift (py_max (msjs self)) ;
   ret scores)%py.

(** The score mapping [decode_and_print] returns for the cleaned
    references [gts] and hypotheses [preds]. *)
Definition all_scores (gts preds : list string) : list (string * R) :=
  dict_update (compute_metrics [gts] preds)
              (prefix_msj (get_jaccard_score gts preds)).

(** The state after the [if val:] block. *)
Definition recorded (val : bool) (scores : list (string * R))
    (s : TrainVQG) : TrainVQG :=
  if val then state_after (for_each scores record_score s) else s.

(** The strings the loop of [decode_and_print] works on. *)
Definition decoded_inputs (batch : Batch) : list string :=
  map (decode tokenizer) (input_ids batch).
Definition decoded_questions (batch : Batch) : list string :=
  map (decode tokenizer) (question_ids batch).

(** The default of [print_lim]. *)
Definition print_lim_default : Z := 20.

(** ** [TrainVQG.validation_epoch_end] *)

Definition validation_epoch_end (batch : list Batch) : M unit :=
  (batch <~ lift (py_getitem batch 0) ;
   scores <~ decode_and_print batch print_lim_default true ;
   for_each scores (fun kv => log ("val_" +:+ kv.1) (rounded kv.2)) ;;
   (* for k, v in self.val_losses.items(): ...; self.val_losses[k] = [] *)
   self <~ get ;
   modify (set_val_losses ((fun _ => []) <$> val_losses self)) ;;
   ret tt)%py.

(** ** [TrainVQG.test_step] *)

(** The body of the accumulation loop for one score. *)
Definition accumulate_score (kv : string * R) : M unit :=
  (self <~ get ;
   match test_scores self !! kv.1 with
   | None => modify (set_test_scores (<[kv.1 := []]> (test_scores self)))
   | Some l =>
       modify (set_test_scores (<[kv.1 := l ++ [kv.2]]> (test_scores self)))
   end)%py.

Definition test_step (batch : Batch) (batch_idx : Z)
    : M (list (string * R)) :=
  (scores <~ decode_and_print batch print_lim_default false ;
   for_each scores accumulate_score ;;
   ret scores)%py.

(** ** The trainer's loops *)

(** The external trainer calls a step method on the batches of a loader
    in turn, with the running batch index, until one raises. *)
Fixpoint run_steps {A} (step : Batch -> Z -> M A) (batches : list Batch)
    (batch_idx : Z) : M (list A) :=
  match batches with
  | [] => ret []
  | batch :: rest =>
      (x <~ step batch batch_idx ;
       xs <~ run_steps step rest (batch_idx + 1) ;
       ret (x :: xs))%py
  end.

(** The hooks a trainer calls, in any order and any number of times.
    [test_end] is not among them: it replaces every list of
    [test_scores] by its mean, after which the attribute no longer holds
    lists, and nothing here describes an object past that point. *)
Inductive call :=
  | TrainingStep (batch : Batch) (batch_idx : Z)
  | ValidationStep (batch : Batch) (batch_idx : Z)
  | ValidationEpochEnd (batches : list Batch)
  | TestStep (batch : Batch) (batch_idx : Z)
  | ConfigureOptimizers.

Definition exec (c : call) : M unit :=
  match c with
  | TrainingStep b i => (_ <~ training_step b i ; ret tt)%py
  | ValidationStep b i => (_ <~ validation_step b i ; ret tt)%py
  | ValidationEpochEnd bs => validation_epoch_end bs
  | TestStep b i => (_ <~ test_step b i ; ret tt)%py
  | ConfigureOptimizers => (_ <~ configure_optimizers ; ret tt)%py
  end.

(** The states an object can be in before [test_end]: freshly
    constructed, or after any call (failed calls included: their
    mutations stay). *)
Inductive reachable : TrainVQG -> Prop :=
  | reachable_init a : reachable (init a)
  | reachable_call s c : reachable s -> reachable (state_after (exec c s)).

End Methods.

(** ** Reference definitions, in the words of the specification *)

(** Everything at and after the first separator is dropped. *)
Fixpoint truncate_at (sep : string) (l : list string) : list string :=
  match l with
  | [] => []
  | x :: l' => if decide (x = sep) then [] else x :: truncate_at sep l'
  end.

(** Truncate at the first separator, then remove every special token. *)
Definition filter_spec {T} (tok : BertTokenizer T) (s : string) : string :=
  PyStr.join " "
    (filter (fun t => t ∉ all_special_tokens tok)
            (truncate_at (sep_token tok) (PyStr.split s))).

(** The three accumulators of [val_losses] exist. *)
Definition val_keys_present (s : TrainVQG) : Prop :=
  is_Some (val_losses s !! "total loss")
  /\ is_Some (val_losses s !! "rec loss")
  /\ is_Some (val_losses s !! "kl loss").

(** [d[k]] on an association-list dict; [None] for a missing key. *)
Fixpoint dict_get {V} (k : string) (d : list (string * V)) : option V :=
  match d with
  | [] => None
  | (k', v) :: d' => if decide (k' = k) then Some v else dict_get k d'
  end.

(** One pass of the accumulation of [test_step] over the entry of a key:
    a missing entry is created empty, an existing one gets the score. *)
Definition bump (entry : option (list R)) (v : R) : list R :=
  match entry with
  | None => []
  | Some l => l ++ [v]
  end.

(** The entry of [k] after a run of test steps, from the entry before. *)
Definition after_scores (k : string) (entry : option (list R))
    (outs : list (list (string * R))) : option (list R) :=
  foldl (fun o sc => match dict_get k sc with
                     | Some v => Some (bump o v)
                     | None => o
                     end) entry outs.

(** The number of optimizers constructed along a trace. *)
Definition is_new_optimizer (e : event) : bool :=
  match e with
  | NewOptimizer _ => true
  | Log _ _ => false
  end.

Definition optimizers_built (s : TrainVQG) : nat :=
  length (filter (fun e => is_new_optimizer e = true) (trace s)).

(** The number of values an accumulator of [val_losses] holds. *)
Definition val_count (key : string) (s : TrainVQG) : nat :=
  match val_losses s !! key with
  | Some l => length l
  | None => 0
  end.

(** The entries the [if val:] loop adds to the history watching [key],
    at iteration [it], for the score mapping [scores]. *)
Definition watched `{Collaborators} (key : string) (it : Z)
    (scores : list (string * R)) : list (Z * R) :=
  map (fun kv => (it, rounded kv.2)) (filter (fun kv => kv.1 = key) scores).

(** A word as [str.split()] produces them: not empty, no white space. *)
Fixpoint space_free (w : string) : bool :=
  match w with
  | EmptyString => true
  | String c w' => negb (PyStr.is_space c) && space_free w'
  end.

Definition is_word (w : string) : Prop :=
  w <> EmptyString /\ space_free w = true.

(** The command-line defaults of the three arguments [TrainVQG] reads. *)
Definition default_args : Args :=
  {| lr := (3 / 100000)%R;
     num_warmup_steps := Finite (inject_Z 35000);
     total_training_steps := 35000 |}.

(** The state after a sequence of calls, each made whatever the outcome
    of the one before. *)
Definition exec_all `{Collaborators} (cs : list call) (s : TrainVQG)
    : TrainVQG :=
  foldl (fun s c => state_after (exec c s)) s cs.

(** What the loop of [decode_and_print] needs of example [i]: a decoded
    input and a decoded question at that position and, for the examples
    that are printed, an image id and an input that does not filter to
    the empty string. *)
Definition example_ok `{Collaborators} (lim : Z) (batch : Batch)
    (dis dqs : list string) (i : nat) : Prop :=
  exists di,
    dis !! i = Some di /\ is_Some (dqs !! i)
    /\ (Z.of_nat i < lim ->
        is_Some (image_ids batch !! i)
        /\ filter_special_tokens tokenizer di <> "").

(** ** A concrete setting for examples *)

Module Example.

#[export] Instance types : DataTypes :=
  {| TokenIds := list Z; Tensor := unit; ImageId := Z |}.

(** A five-word vocabulary around BERT's structural tokens. *)
Definition word (id : Z) : string :=
  if id =? 101 then "[CLS]"
  else if id =? 102 then "[SEP]"
  else if id =? 0 then "[PAD]"
  else if id =? 1 then "animal"
  else if id =? 2 then "cat"
  else if id =? 3 then "dog"
  else "[UNK]".

Definition bert : BertTokenizer (list Z) :=
  {| decode := fun ids => PyStr.join " " (map word ids);
     all_special_tokens := ["[UNK]"; "[SEP]"; "[PAD]"; "[CLS]"; "[MASK]"];
     sep_token := "[SEP]" |}.

(** A model whose KL term appears once the latent path is on, and whose
    greedy decoder always asks the same question. *)
Definition world : Collaborators :=
  {| tokenizer := bert;
     VQGModel_forward := fun latent _ => (2%R, if latent then Some 1%R else None);
     decode_greedy := fun _ b => map (fun _ => "[CLS] what is it [SEP]") (input_ids b);
     compute_metrics := fun _ _ => [("Bleu_4", (1 / 2)%R)];
     get_jaccard_score := fun _ _ => [(4, (1 / 4)%R)];
     np_round := fun x _ => x |}.

Definition batch_of (inputs : list (list Z)) : Batch :=
  {| images := tt;
     image_ids := map (fun _ => 7) inputs;
     question_ids := map (fun _ => [101; 2; 102]) inputs;
     question_attention_masks := tt;
     input_ids := inputs;
     input_attention_masks := tt;
     rcnn_features := tt;
     rcnn_locations := tt |}.

(** One example, with category [animal] and keywords [cat dog]. *)
Definition good_batch : Batch := batch_of [[101; 1; 2; 3; 102]].

(** One example whose input is structural tokens only. *)
Definition blank_batch : Batch := batch_of [[101; 102; 0; 0]].

Definition config (warmup : Z) (total : Z) : Args :=
  {| lr := (3 / 100000)%R;
     num_warmup_steps := Finite (inject_Z warmup);
     total_training_steps := total |}.

(** A state with one validation pass behind it. *)
Definition validated : TrainVQG :=
  state_after (validation_epoch_end (W := world) [good_batch] (init (config 0 4))).

End Example.

(** * Properties *)

Section Properties.

Context {DT : DataTypes} {W : Collaborators}.

(** ** Running monadic code *)

Lemma bind_ok {A B} (m : M A) (k : A -> M B) s s' a :
  m s = (s', inr a) -> bind m k s = k a s'.
Proof. intros E. unfold bind. now rewrite E. Qed.

Lemma bind_raise {A B} (m : M A) (k : A -> M B) s s' e :
  m s = (s', inl e) -> bind m k s = (s', inl e).
Proof. intros E. unfold bind. now rewrite E. Qed.

Lemma preserves_ret {A} P (a : A) : preserves P (ret a).
Proof. intros s Hs. exact Hs. Qed.

Lemma preserves_raise {A} P e : preserves P (@raise A e).
Proof. intros s Hs. exact Hs. Qed.

Lemma preserves_get P : preserves P get.
Proof. intros s Hs. exact Hs. Qed.

Lemma preserves_lift {A} P (r : exn + A) : preserves P (lift r).
Proof. intros s Hs. exact Hs. Qed.

Lemma preserves_modify P f :
  (forall s, P s -> P (f s)) -> preserves P (modify f).
Proof. intros Hf s Hs. apply Hf, Hs. Qed.

Lemma preserves_bind {A B} P (m : M A) (k : A -> M B) :
  preserves P m -> (forall a, preserves P (k a)) -> preserves P (bind m k).
Proof.
  intros Hm Hk s Hs. specialize (Hm s Hs). unfold bind, state_after in *.
  destruct (m s) as [s' [e|a]]; simpl in *; [exact Hm|].
  apply (Hk a s' Hm).
Qed.

Lemma preserves_for_each {A} P (l : list A) (body : A -> M unit) :
  (forall x, preserves P (body x)) -> preserves P (for_each l body).
Proof.
  intros Hb. induction l as [|x l IH]; simpl.
  - apply preserves_ret.
  - apply preserves_bind; [apply Hb|intros _; exact IH].
Qed.

Lemma preserves_run_steps {A} P (step : Batch -> Z -> M A) bs i :
  (forall b j, preserves P (step b j)) -> preserves P (run_steps step bs i).
Proof.
  intros Hs. revert i. induction bs as [|b bs IH]; intros i; simpl.
  - apply preserves_ret.
  - apply preserves_bind; [apply Hs|intros x].
    apply preserves_bind; [apply IH|intros xs; apply preserves_ret].
Qed.

(** Walk through a method body; what is left are its [modify] steps. *)
Ltac preserve_step :=
  lazymatch goal with
  | |- preserves _ (ret _) => apply preserves_ret
  | |- preserves _ (raise _) => apply preserves_raise
  | |- preserves _ get => apply preserves_get
  | |- preserves _ (lift _) => apply preserves_lift
  | |- preserves _ (bind _ _) => apply preserves_bind; [|intros ?]
  | |- preserves _ (for_each _ _) => apply preserves_for_each; intros ?
  | |- preserves _ (modify _) => apply preserves_modify
  | |- preserves _ (match ?x with _ => _ end) => destruct x
  end.

Ltac preserve := repeat preserve_step.

Lemma run_steps_cons {A} (step : Batch -> Z -> M A) b bs i s :
  run_steps step (b :: bs) i s =
  bind (step b i)
       (fun x => bind (run_steps step bs (i + 1)) (fun xs => ret (x :: xs))) s.
Proof. reflexivity. Qed.

(** ** Binary64 within its exact range *)

(** The rounding on some values: a third; ties to even above [2^53];
    half the smallest subnormal; the largest float and the threshold. *)
Lemma round_nearest_examples :
  Float64.round_nearest (1 # 3) = (6004799503160661 # 18014398509481984)%Q
  /\ Float64.round_nearest (inject_Z (2 ^ 53 + 1)) = inject_Z (2 ^ 53)
  /\ Float64.round_nearest (inject_Z (2 ^ 53 + 3)) = inject_Z (2 ^ 53 + 4)
  /\ Float64.round_nearest (1 # 2 ^ 1075) = 0%Q
  /\ Float64.round_nearest (3 # 2 ^ 1075) = (1 # 2 ^ 1073)%Q
  /\ Float64.round_nearest (inject_Z (Float64.overflow_threshold - 1))
     = inject_Z (2 ^ 1024 - 2 ^ 971)
  /\ Float64.overflows (inject_Z (Float64.overflow_threshold - 1)) = false
  /\ Float64.overflows (inject_Z (- Float64.overflow_threshold)) = true.
Proof. repeat split; vm_compute; reflexivity. Qed.

Lemma threshold_above_2_53 : 2 ^ 53 <= Float64.overflow_threshold.
Proof. vm_compute. discriminate. Qed.

Lemma overflows_small (n : Z) (d : positive) :
  Z.abs n < 2 ^ 53 -> Float64.overflows (n # d) = false.
Proof.
  intros H. unfold Float64.overflows, Qle_bool. simpl.
  pose proof threshold_above_2_53 as T.
  apply Z.leb_gt.
  assert (1 <= Z.pos d) by lia. nia.
Qed.

(** A total below [2 ^ 53] in magnitude has an exact quarter. *)
Lemma py_int_truediv_exact (T : Z) :
  Z.abs T < 2 ^ 53 -> py_int_truediv T 4 = inr (T # 4)%Q.
Proof.
  intros H. unfold py_int_truediv, int_quotient. simpl.
  rewrite overflows_small by exact H.
  unfold Float64.to_double, Float64.fits53. simpl.
  apply Z.ltb_lt in H. rewrite H. reflexivity.
Qed.

Lemma py_float_of_int_exact (i : Z) :
  Z.abs i < 2 ^ 53 -> py_float_of_int i = inr (inject_Z i).
Proof.
  intros H. unfold py_float_of_int, inject_Z.
  rewrite overflows_small by exact H.
  unfold Float64.to_double, Float64.fits53. simpl.
  apply Z.ltb_lt in H. rewrite H. reflexivity.
Qed.

Lemma Qeq_bool_false_pos (y : Q) : (0 < y)%Q -> Qeq_bool y 0 = false.
Proof.
  intros H. destruct (Qeq_bool y 0) eqn:E; [|reflexivity].
  apply Qeq_bool_eq in E. rewrite E in H. exfalso. exact (Qlt_irrefl 0 H).
Qed.

(** The remainder of a nonnegative float by a positive one is the
    remainder of the floored division, with no rounding. *)
Lemma py_float_mod_pos (x y : Q) :
  (0 <= x)%Q -> (0 < y)%Q ->
  let m := (x - y * inject_Z (Qfloor (x / y)))%Q in
  py_float_mod x y = inr m /\ (0 <= m)%Q /\ (m < y)%Q.
Proof.
  intros Hx Hy m.
  assert (0 <= x / y)%Q as Hq.
  { apply Qle_shift_div_l; [exact Hy|]. rewrite Qmult_0_l. exact Hx. }
  assert (y * (x / y) == x)%Q as Hxy.
  { apply Qmult_div_r. intros E. rewrite E in Hy. exact (Qlt_irrefl 0 Hy). }
  pose proof (Qfloor_le (x / y)) as Hlo.
  pose proof (Qlt_floor (x / y)) as Hhi.
  assert (m == y * (x / y - inject_Z (Qfloor (x / y))))%Q as Hm.
  { unfold m. rewrite <- Hxy at 1. ring. }
  assert (0 <= m)%Q as Hm0.
  { rewrite Hm.
    apply Qmult_le_0_compat; [apply Qlt_le_weak; exact Hy|].
    apply (proj1 (Qle_minus_iff _ _)). exact Hlo. }
  assert (m < y)%Q as Hm1.
  { rewrite Hm.
    apply Qlt_le_trans with (y := (y * 1)%Q);
      [|rewrite Qmult_1_r; apply Qle_refl].
    apply (proj2 (Qmult_lt_l _ _ y Hy)).
    rewrite inject_Z_plus in Hhi.
    apply Qplus_lt_l with (z := inject_Z (Qfloor (x / y))).
    setoid_replace
      (x / y - inject_Z (Qfloor (x / y)) + inject_Z (Qfloor (x / y)))%Q
      with (x / y)%Q using relation Qeq by ring.
    rewrite Qplus_comm. exact Hhi. }
  split; [|split; assumption].
  unfold py_float_mod. rewrite Qeq_bool_false_pos by exact Hy.
  unfold Qtrunc.
  replace (Qle_bool 0 (x / y)) with true
    by (symmetry; apply Qle_bool_iff; exact Hq).
  fold m.
  assert (Qneg y = false) as ->.
  { unfold Qneg. apply negb_false_iff, Qle_bool_iff, Qlt_le_weak, Hy. }
  assert (Qneg m = false) as ->.
  { unfold Qneg. apply negb_false_iff, Qle_bool_iff, Hm0. }
  simpl. rewrite andb_false_r. reflexivity.
Qed.

Lemma py_float_mod_total (x y : Q) :
  Qeq_bool y 0 = false -> exists m, py_float_mod x y = inr m.
Proof.
  intros H. unfold py_float_mod. rewrite H.
  destruct (_ && _); eexists; reflexivity.
Qed.

Lemma Qeq_bool_quarter (T : Z) : Qeq_bool (T # 4) 0 = (T =? 0).
Proof.
  unfold Qeq_bool. simpl. rewrite Z.mul_1_r.
  destruct T; reflexivity.
Qed.

Lemma round_half_even_exact (d x : Z) :
  0 < d -> Float64.round_half_even (d * x) d = x.
Proof.
  intros Hd. unfold Float64.round_half_even.
  rewrite (Z.mul_comm d x), Z.mod_mul, Z.div_mul by lia.
  simpl. destruct d; lia.
Qed.

(** Rounding leaves a number of at most 53 bits over 1, 2 or 4. *)
Lemma round_pos_exact (a d : Z) :
  0 < a < 2 ^ 53 -> d = 1 \/ d = 2 \/ d = 4 ->
  (Float64.round_pos a d == a # Z.to_pos d)%Q.
Proof.
  intros Ha Hd. unfold Float64.round_pos.
  assert (0 <= Z.log2 a <= 52) as HL.
  { split; [apply Z.log2_nonneg|].
    assert (Z.log2 a < 53); [|lia]. apply Z.log2_lt_pow2; lia. }
  assert (exists j, 0 <= j <= 2 /\ Z.log2 d = j /\ d = 2 ^ j) as (j & Hj & Hlog & Hpow).
  { destruct Hd as [-> | [-> | ->]]; [exists 0|exists 1|exists 2]; repeat split; lia. }
  assert (exists k, Float64.floor_log2 a d = k /\ -3 <= k <= 52 - j)
    as (k & -> & Hk).
  { unfold Float64.floor_log2. rewrite Hlog. destruct (_ <=? _); eexists; split; try reflexivity; lia. }
  replace (Z.max (k - 52) (-1074)) with (k - 52) by lia.
  unfold Float64.pow2.
  replace (Z.max (k - 52) 0) with 0 by lia.
  replace (Z.max (- (k - 52)) 0) with (j + (52 - k - j)) by lia.
  rewrite Z.pow_add_r by lia. rewrite <- Hpow. rewrite Z.pow_0_r, !Z.mul_1_r.
  set (g := 2 ^ (52 - k - j)).
  assert (0 < g) as Hg by (apply Z.pow_pos_nonneg; lia).
  assert (0 < d) as Hd0 by lia.
  replace (a * (d * g)) with (d * (a * g)) by ring.
  rewrite round_half_even_exact by exact Hd0.
  rewrite Qred_correct. unfold Qeq. simpl.
  rewrite !Z2Pos.id by nia. ring.
Qed.

Lemma Qred_quarters (q : Q) :
  Float64.fits53 q = true ->
  Z.abs (Qnum (Qred q)) < 2 ^ 53
  /\ (Zpos (Qden (Qred q)) = 1 \/ Zpos (Qden (Qred q)) = 2
      \/ Zpos (Qden (Qred q)) = 4).
Proof.
  unfold Float64.fits53. rewrite andb_true_iff, orb_true_iff, Z.ltb_lt.
  rewrite !Pos.eqb_eq. intros [Hn Hd].
  pose proof (gcd_Qred q) as Hg. pose proof (Qred_correct q) as He.
  unfold Qeq in He.
  set (a := Qnum (Qred q)) in *. set (d := Zpos (Qden (Qred q))) in *.
  assert (0 < d) as Hd0 by (unfold d; lia).
  assert ((d | Zpos (Qden q))) as Hdiv.
  { apply Z.gauss with (m := a); [|rewrite Z.gcd_comm; exact Hg].
    exists (Qnum q). lia. }
  destruct Hd as [E|E]; rewrite E in Hdiv, He.
  - apply Z.divide_1_r_nonneg in Hdiv; [|lia]. split; [lia|auto].
  - pose proof (Z.divide_pos_le d 4 ltac:(lia) Hdiv) as Hle.
    assert (d = 1 \/ d = 2 \/ d = 3 \/ d = 4) as [H|[H|[H|H]]] by lia;
      rewrite H in He, Hdiv.
    + split; [lia|auto].
    + split; [lia|auto].
    + destruct Hdiv as [c Hc]. lia.
    + split; [lia|auto].
Qed.

(** A binary64 value in quarters is its own rounding. *)
Lemma round_nearest_exact (q : Q) :
  Float64.fits53 q = true -> (Float64.round_nearest q == q)%Q.
Proof.
  intros H. destruct (Qred_quarters q H) as [Hn Hd].
  pose proof (Qred_correct q) as He.
  unfold Float64.round_nearest.
  destruct (Qred q) as [a d] eqn:Eq. simpl in *.
  destruct a as [|p|p].
  - rewrite <- He. reflexivity.
  - transitivity (Zpos p # d)%Q; [|exact He].
    apply (round_pos_exact (Zpos p) (Zpos d)); [lia|exact Hd].
  - transitivity (- (Zpos p # d))%Q; [|exact He].
    apply Qopp_comp.
    apply (round_pos_exact (Zpos p) (Zpos d)); [lia|exact Hd].
Qed.

(** [to_double] is rounding to nearest. *)
Lemma to_double_round (q : Q) :
  (Float64.to_double q == Float64.round_nearest q)%Q.
Proof.
  unfold Float64.to_double. destruct (Float64.fits53 q) eqn:E.
  - symmetry. apply round_nearest_exact, E.
  - reflexivity.
Qed.

Lemma to_double_comp (p q : Q) :
  (p == q)%Q -> (Float64.to_double p == Float64.to_double q)%Q.
Proof.
  intros E. rewrite !to_double_round. unfold Float64.round_nearest.
  rewrite (Qred_complete p q E). reflexivity.
Qed.

Lemma round_half_even_nonneg (n d : Z) :
  0 <= n -> 0 < d -> 0 <= Float64.round_half_even n d.
Proof.
  intros Hn Hd. unfold Float64.round_half_even.
  assert (0 <= n / d) by (apply Z.div_pos; lia).
  destruct (_ ?= _); [destruct (Z.even _)|..]; lia.
Qed.

Lemma pow2_pos (k : Z) : 0 < Float64.pow2 k.
Proof. unfold Float64.pow2. apply Z.pow_pos_nonneg; lia. Qed.

(** Rounding keeps the sign of a nonnegative number. *)
Lemma round_nearest_nonneg (q : Q) :
  (0 <= q)%Q -> (0 <= Float64.round_nearest q)%Q.
Proof.
  intros Hq. unfold Float64.round_nearest.
  rewrite <- (Qred_correct q) in Hq.
  destruct (Qred q) as [a d]. simpl.
  destruct a as [|p|p].
  - apply Qle_refl.
  - unfold Float64.round_pos. rewrite Qred_correct.
    unfold Qle. simpl. rewrite Z.mul_1_r.
    apply Z.mul_nonneg_nonneg; [|pose proof (pow2_pos
      (Z.max (Float64.floor_log2 (Z.pos p) (Z.pos d) - 52) (-1074))); lia].
    apply round_half_even_nonneg.
    + pose proof (pow2_pos (- Z.max (Float64.floor_log2 (Z.pos p) (Z.pos d) - 52) (-1074))). nia.
    + pose proof (pow2_pos (Z.max (Float64.floor_log2 (Z.pos p) (Z.pos d) - 52) (-1074))). nia.
  - exfalso. unfold Qle in Hq. simpl in Hq. lia.
Qed.

Lemma to_double_nonneg (q : Q) :
  (0 <= q)%Q -> (0 <= Float64.to_double q)%Q.
Proof.
  intros Hq. rewrite to_double_round. apply round_nearest_nonneg, Hq.
Qed.

(** Rounding keeps zero. *)
Lemma to_double_zero (q : Q) :
  (q == 0)%Q -> (Float64.to_double q == 0)%Q.
Proof.
  intros E. unfold Float64.to_double.
  destruct (Float64.fits53 q); [exact E|].
  unfold Float64.round_nearest.
  rewrite (Qred_complete q 0 E). reflexivity.
Qed.

(** Within the exact range of binary64, [temp] is the rounded quotient
    of the remainder of [iter] by [T / 4]. *)
Lemma phase_exact (T i : Z) :
  0 < T < 2 ^ 53 -> 0 <= i < 2 ^ 53 ->
  let C := (T # 4)%Q in
  let m := (inject_Z i - C * inject_Z (Qfloor (inject_Z i / C)))%Q in
  phase T i = inr (Float64.to_double (m / C)) /\ (0 <= m)%Q /\ (m < C)%Q.
Proof.
  intros HT Hi C m. unfold phase.
  rewrite py_int_truediv_exact by lia. fold C.
  unfold py_int_mod_float. rewrite py_float_of_int_exact by lia.
  assert (0 < C)%Q as HC by (unfold C, Qlt; simpl; lia).
  assert (0 <= inject_Z i)%Q as Hx by (unfold Qle; simpl; lia).
  destruct (py_float_mod_pos (inject_Z i) C Hx HC) as (E & Hm0 & Hm1).
  rewrite E. fold m. split; [|split; assumption].
  unfold py_truediv. rewrite Qeq_bool_false_pos by exact HC. reflexivity.
Qed.

(** With a total of [4 * c], the phase is the rounded quotient of
    [iter mod c] by [c]. *)
Lemma phase_quarter (c i : Z) :
  0 < c -> 4 * c < 2 ^ 53 -> 0 <= i < 2 ^ 53 ->
  exists t, phase (4 * c) i = inr t
            /\ (t == Float64.to_double (inject_Z (i mod c) / inject_Z c))%Q.
Proof.
  intros Hc HT Hi.
  destruct (phase_exact (4 * c) i ltac:(lia) Hi) as (E & _ & _).
  eexists. split; [exact E|].
  apply to_double_comp.
  assert ((4 * c # 4) == inject_Z c)%Q as EC.
  { unfold Qeq, inject_Z. simpl. lia. }
  assert (~ inject_Z c == 0)%Q as NC.
  { unfold Qeq, inject_Z. simpl. lia. }
  assert (Qfloor (inject_Z i / (4 * c # 4)) = i / c) as EF.
  { rewrite (Qfloor_comp _ (i # Z.to_pos c)).
    - simpl. rewrite Z2Pos.id by lia. reflexivity.
    - rewrite EC. unfold Qeq, Qdiv, Qmult, Qinv, inject_Z. simpl.
      destruct c as [|p|p]; try lia. simpl. lia. }
  rewrite EF, EC.
  apply Qmult_comp; [|reflexivity].
  rewrite (Z.mod_eq i c) by lia.
  unfold Zminus. rewrite inject_Z_plus, inject_Z_opp, inject_Z_mult.
  ring.
Qed.

Lemma phase_total (T i : Z) :
  T <> 0 -> Z.abs T < 2 ^ 53 -> Z.abs i < 2 ^ 53 ->
  exists t, phase T i = inr t.
Proof.
  intros N HT Hi. unfold phase.
  rewrite py_int_truediv_exact by exact HT.
  unfold py_int_mod_float. rewrite py_float_of_int_exact by exact Hi.
  assert (Qeq_bool (T # 4) 0 = false) as E.
  { rewrite Qeq_bool_quarter. apply Z.eqb_neq. exact N. }
  destruct (py_float_mod_total (inject_Z i) (T # 4) E) as [m ->].
  unfold py_truediv. rewrite E. eexists. reflexivity.
Qed.

Lemma phase_zero_total (i : Z) :
  Z.abs i < 2 ^ 53 -> phase 0 i = inl ZeroDivisionError.
Proof.
  intros Hi. unfold phase.
  rewrite py_int_truediv_exact by (simpl; lia).
  unfold py_int_mod_float. rewrite py_float_of_int_exact by exact Hi.
  reflexivity.
Qed.

Lemma phase_raises (T i : Z) (e : exn) :
  Z.abs T < 2 ^ 53 -> Z.abs i < 2 ^ 53 ->
  phase T i = inl e <-> e = ZeroDivisionError /\ T = 0.
Proof.
  intros HT Hi. destruct (decide (T = 0)) as [->|N].
  - rewrite phase_zero_total by exact Hi.
    split; [intros [= <-]; auto|intros [-> _]; reflexivity].
  - destruct (phase_total T i N HT Hi) as [t ->].
    split; [discriminate|intros [_ E]; contradiction].
Qed.

(** The schedule raises nothing but these two. *)
Lemma phase_errors (T i : Z) (e : exn) :
  phase T i = inl e -> e = ZeroDivisionError \/ e = OverflowError.
Proof.
  unfold phase, py_int_truediv, py_int_mod_float, py_float_of_int,
    py_float_mod, py_truediv.
  repeat match goal with
         | |- context [if ?c then _ else _] => destruct c
         end;
    intros [= <-]; auto.
Qed.

(** A total so large that a quarter of it is no binary64 value. *)
Lemma phase_overflow (T i : Z) :
  4 * Float64.overflow_threshold <= Z.abs T -> phase T i = inl OverflowError.
Proof.
  intros H. unfold phase, py_int_truediv, int_quotient. simpl.
  assert (Float64.overflows (T # 4) = true) as ->; [|reflexivity].
  unfold Float64.overflows, Qle_bool. simpl. apply Z.leb_le. lia.
Qed.

(** ** The loss schedule *)

Lemma calculate_losses_eq loss k r s :
  calculate_losses loss (Some k) r s =
  (s, match phase (total_training_steps (args s)) (iter s) with
      | inl e => inl e
      | inr t =>
          inr ((loss + (if Rle_dec (Q2R t) r
                        then 1 / (1 + exp (- Q2R t)) else 1) * k)%R,
               loss, k)
      end).
Proof.
  unfold calculate_losses, phase, bind, get, lift. simpl.
  destruct (py_int_truediv _ 4) as [e|c]; [reflexivity|].
  destruct (py_int_mod_float _ c) as [e|m]; [reflexivity|].
  destruct (py_truediv m c) as [e|t]; reflexivity.
Qed.

Lemma calculate_losses_pure loss kld r s :
  calculate_losses loss kld r s = (s, outcome (calculate_losses loss kld r s)).
Proof.
  destruct kld as [k|]; [rewrite calculate_losses_eq|]; reflexivity.
Qed.

Lemma calculate_losses_zero_total loss k r s :
  total_training_steps (args s) = 0 ->
  Z.abs (iter s) < 2 ^ 53 ->
  calculate_losses loss (Some k) r s = (s, inl ZeroDivisionError).
Proof.
  intros E Hi. rewrite calculate_losses_eq, E, phase_zero_total by exact Hi.
  reflexivity.
Qed.

Lemma sigmoid_0 : (1 / (1 + exp (- 0)) = 1 / 2)%R.
Proof. rewrite Ropp_0, exp_0. lra. Qed.

Lemma sigmoid_range (t : R) :
  (0 <= t)%R -> (1 / 2 <= 1 / (1 + exp (- t)) <= 1)%R.
Proof.
  intros Ht.
  pose proof (exp_pos (- t)) as Hpos.
  assert (exp (- t) <= 1)%R as Hle.
  { destruct (Req_dec t 0) as [->|Hne].
    - rewrite Ropp_0, exp_0. lra.
    - rewrite <- exp_0. left. apply exp_increasing. lra. }
  assert (1 / (1 + exp (- t)) * (1 + exp (- t)) = 1)%R as Hx
    by (field; lra).
  revert Hx Hpos Hle.
  generalize (1 / (1 + exp (- t)))%R as x, (exp (- t)) as e.
  intros x e Hx Hpos Hle. split; nra.
Qed.

(** The rounded phase of a remainder is not negative. *)
Lemma phase_nonneg (m C : Q) :
  (0 <= m)%Q -> (m < C)%Q -> (0 <= Q2R (Float64.to_double (m / C)))%R.
Proof.
  intros Hm HC. rewrite <- RMicromega.Q2R_0. apply Qle_Rle.
  apply to_double_nonneg. apply Qle_shift_div_l.
  - eapply Qle_lt_trans; eassumption.
  - rewrite Qmult_0_l. exact Hm.
Qed.

(** When the loss computation raises, for a total and a counter that
    binary64 holds exactly. *)
Lemma calculate_losses_raises (s : TrainVQG) (loss : R) (kld : option R)
    (r : R) (e : exn) :
  Z.abs (total_training_steps (args s)) < 2 ^ 53 ->
  Z.abs (iter s) < 2 ^ 53 ->
  outcome (calculate_losses loss kld r s) = inl e
  <-> e = ZeroDivisionError /\ kld <> None
      /\ total_training_steps (args s) = 0.
Proof.
  intros HT Hi. destruct kld as [k|].
  - rewrite calculate_losses_eq. unfold outcome. cbn [snd].
    pose proof (phase_raises _ _ e HT Hi) as P.
    destruct (phase _ _) as [e'|t].
    + split.
      * intros [= <-]. destruct (proj1 P eq_refl) as [-> E]. auto.
      * intros (-> & _ & E). f_equal. symmetry.
        assert (inl e' = @inl exn Q ZeroDivisionError) as [= ->]
          by (apply P; auto).
        reflexivity.
    + split; [discriminate|].
      intros (-> & _ & E). exfalso.
      assert (@inr exn Q t = inl ZeroDivisionError) by (apply P; auto).
      discriminate.
  - change (outcome (calculate_losses loss None r s))
      with (@inr exn (R * R * R) (loss, loss, 0%R)).
    split; [discriminate|intros (_ & N & _); contradiction].
Qed.

Lemma calculate_losses_total (s : TrainVQG) (loss : R) (kld : option R)
    (r : R) :
  total_training_steps (args s) <> 0 ->
  Z.abs (total_training_steps (args s)) < 2 ^ 53 ->
  Z.abs (iter s) < 2 ^ 53 ->
  exists x, outcome (calculate_losses loss kld r s) = inr x.
Proof.
  intros N HT Hi.
  destruct (outcome (calculate_losses loss kld r s)) as [e|x] eqn:E.
  - apply calculate_losses_raises in E; [|assumption..].
    destruct E as (_ & _ & E). contradiction.
  - exists x. reflexivity.
Qed.

(** ** Plain mode *)

(** C5: with a null [kld], [calculate_losses] returns the reconstruction
    loss as total and as reconstruction loss and 0 as KL loss, whatever
    the iteration and the total number of steps, and raises nothing. *)
Theorem calculate_losses_plain (s : TrainVQG) (loss r : R) :
  calculate_losses loss None r s = (s, inr (loss, loss, 0%R)).
Proof. reflexivity. Qed.

(** ** Latent mode *)

(** C2 (as amended): with a non-null [kld], a total [0 < T < 2^53] and an
    iteration [0 <= iter < 2^53], let [C = T/4], let [m] be the remainder
    of [iter] by [C] ([iter = q * C + m] for an integer [q], with
    [0 <= m < C]) and let [t] be the binary64 value nearest to [m / C],
    which is not negative.  Then [calculate_losses] returns
    [(loss + beta * kld, loss, kld)] where [beta = 1/(1+exp(-t))] when
    [t <= 0.5] and [beta = 1] when [t > 0.5]; and at a cycle boundary
    ([m = 0]) [beta = 0.5]. *)
Theorem calculate_losses_latent (s : TrainVQG) (loss k : R) :
  let T := total_training_steps (args s) in
  let C := (T # 4)%Q in
  let q := Qfloor (inject_Z (iter s) / C) in
  let m := (inject_Z (iter s) - C * inject_Z q)%Q in
  let t := Float64.to_double (m / C) in
  0 < T < 2 ^ 53 ->
  0 <= iter s < 2 ^ 53 ->
  exists beta : R,
    calculate_losses loss (Some k) r_default s
      = (s, inr ((loss + beta * k)%R, loss, k))
    /\ (inject_Z (iter s) == inject_Z q * C + m)%Q
    /\ (0 <= m)%Q /\ (m < C)%Q
    /\ (0 <= Q2R t)%R
    /\ ((Q2R t <= 1 / 2)%R -> beta = (1 / (1 + exp (- Q2R t)))%R)
    /\ ((1 / 2 < Q2R t)%R -> beta = 1%R)
    /\ ((m == 0)%Q -> beta = (1 / 2)%R).
Proof.
  intros T C q m t HT Hi.
  destruct (phase_exact T (iter s) HT Hi) as (E & Hm0 & Hm1).
  fold C q m t in E, Hm0, Hm1.
  exists (if Rle_dec (Q2R t) r_default then 1 / (1 + exp (- Q2R t)) else 1)%R.
  split; [rewrite calculate_losses_eq; fold T; rewrite E; reflexivity|].
  split; [unfold m; ring|].
  split; [exact Hm0|]. split; [exact Hm1|].
  split; [apply phase_nonneg; assumption|].
  assert ((m == 0)%Q -> Q2R t = 0%R) as Ht0.
  { intros Hm. rewrite <- RMicromega.Q2R_0. apply Qeq_eqR.
    apply to_double_zero. rewrite Hm. reflexivity. }
  unfold r_default.
  destruct (Rle_dec (Q2R t) (5 / 10)) as [Hle|Hgt].
  - repeat split; [lra|].
    intros Hm. rewrite (Ht0 Hm). apply sigmoid_0.
  - split; [intros; lra|]. split; [reflexivity|].
    intros Hm. exfalso. apply Hgt. rewrite (Ht0 Hm). lra.
Qed.

(** ** The training step *)

Lemma torch_optim_Adam_ok (x : R) :
  (0 <= x)%R -> torch_optim_Adam x = inr (Adam x).
Proof.
  intros H. unfold torch_optim_Adam. destruct (Rlt_dec x 0); [lra|reflexivity].
Qed.

Lemma torch_optim_Adam_raises (x : R) (e : exn) :
  torch_optim_Adam x = inl e <-> e = ValueError /\ (x < 0)%R.
Proof.
  unfold torch_optim_Adam. destruct (Rlt_dec x 0) as [H|H].
  - split; [intros [= <-]; auto|intros [-> _]; reflexivity].
  - split; [discriminate|intros [_ H']; contradiction].
Qed.

Lemma configure_optimizers_eq (s : TrainVQG) :
  configure_optimizers s =
  match torch_optim_Adam (lr (args s)) with
  | inr o => (emit (NewOptimizer o) s, inr o)
  | inl e => (s, inl e)
  end.
Proof.
  unfold configure_optimizers, bind, get, lift. simpl.
  destruct (torch_optim_Adam _); reflexivity.
Qed.

(** [training_step] in one equation: the warm-up switch, which raises
    when the optimizer cannot be built; then the loss computation on the
    switched state, then the three log entries and the increment of the
    counter, unless the loss computation raised. *)
Lemma training_step_eq (b : Batch) (i : Z) (s : TrainVQG) :
  let s1 := switched s in
  let fw := VQGModel_forward (model_latent_transformer s1) b in
  training_step b i s =
  match switch_error s with
  | Some e => (s1, inl e)
  | None =>
      match outcome (calculate_losses fw.1 fw.2 r_default s1) with
      | inr (total_loss, loss_rec, loss_kl) =>
          (set_iter (iter s1 + 1)
             (emit (Log "kl train loss" loss_kl)
                (emit (Log "rec train loss" loss_rec)
                   (emit (Log "total train loss" total_loss) s1))),
           inr total_loss)
      | inl e => (s1, inl e)
      end
  end.
Proof.
  intros s1 fw. unfold training_step.
  assert (forall (k : unit -> M R),
            bind (if float_lt_int (num_warmup_steps (args s)) (iter s)
                  then bind (modify (set_latent_transformer true))
                         (fun _ => bind (modify (set_model_latent_transformer true))
                            (fun _ => bind configure_optimizers (fun _ => ret tt)))
                  else ret tt) k s
            = match switch_error s with
              | Some e => (s1, inl e)
              | None => k tt s1
              end) as Hhead.
  { intros k. unfold s1, switched, switch_error.
    destruct (float_lt_int _ _); [|reflexivity].
    unfold bind at 1 2 3 4. unfold modify. rewrite configure_optimizers_eq.
    cbn [args set_model_latent_transformer set_latent_transformer].
    destruct (torch_optim_Adam _); reflexivity. }
  unfold bind at 1. unfold get at 1. rewrite Hhead.
  destruct (switch_error s); [reflexivity|].
  unfold bind at 1. unfold get at 1. fold fw.
  destruct fw as [loss kld]. simpl.
  unfold bind at 1. rewrite calculate_losses_pure.
  destruct (outcome _) as [e|[[t r] k]]; reflexivity.
Qed.

Lemma switched_args s : args (switched s) = args s.
Proof.
  unfold switched. destruct (float_lt_int _ _); [|reflexivity].
  destruct (torch_optim_Adam _); reflexivity.
Qed.

Lemma switched_iter s : iter (switched s) = iter s.
Proof.
  unfold switched. destruct (float_lt_int _ _); [|reflexivity].
  destruct (torch_optim_Adam _); reflexivity.
Qed.

Lemma switched_latent s :
  latent_transformer (switched s)
  = float_lt_int (num_warmup_steps (args s)) (iter s) || latent_transformer s.
Proof.
  unfold switched. destruct (float_lt_int _ _); [|reflexivity].
  destruct (torch_optim_Adam _); reflexivity.
Qed.

Lemma switched_model_latent s :
  model_latent_transformer (switched s)
  = float_lt_int (num_warmup_steps (args s)) (iter s)
    || model_latent_transformer s.
Proof.
  unfold switched. destruct (float_lt_int _ _); [|reflexivity].
  destruct (torch_optim_Adam _); reflexivity.
Qed.

Lemma optimizers_built_emit e s :
  optimizers_built (emit e s)
  = (optimizers_built s + if is_new_optimizer e then 1 else 0)%nat.
Proof.
  unfold optimizers_built. simpl. rewrite filter_app, length_app.
  f_equal. destruct e; reflexivity.
Qed.

(** The number of optimizers a step builds at its head. *)
Lemma switched_built s :
  optimizers_built (switched s)
  = (optimizers_built s
     + if float_lt_int (num_warmup_steps (args s)) (iter s)
       then match torch_optim_Adam (lr (args s)) with
            | inl _ => 0
            | inr _ => 1
            end else 0)%nat.
Proof.
  unfold switched. destruct (float_lt_int _ _); [|lia].
  destruct (torch_optim_Adam _).
  - unfold optimizers_built. simpl. lia.
  - rewrite optimizers_built_emit. reflexivity.
Qed.

Lemma switch_error_None s :
  (0 <= lr (args s))%R -> switch_error s = None.
Proof.
  intros H. unfold switch_error. rewrite torch_optim_Adam_ok by exact H.
  destruct (float_lt_int _ _); reflexivity.
Qed.

Lemma switch_error_Some s e :
  switch_error s = Some e
  <-> e = ValueError
      /\ float_lt_int (num_warmup_steps (args s)) (iter s) = true
      /\ (lr (args s) < 0)%R.
Proof.
  unfold switch_error. destruct (float_lt_int _ _).
  - destruct (torch_optim_Adam _) as [e'|o] eqn:E.
    + apply torch_optim_Adam_raises in E. destruct E as [-> H].
      split; [intros [= <-]; auto|intros (-> & _); reflexivity].
    + split; [discriminate|]. intros (_ & _ & H).
      assert (torch_optim_Adam (lr (args s)) = inl ValueError) as E'
        by (apply torch_optim_Adam_raises; auto).
      congruence.
  - split; [discriminate|intros (_ & H & _); discriminate].
Qed.

(** What one training step does to the fields the claims speak about. *)
Lemma training_step_fields (b : Batch) (i : Z) (s : TrainVQG) :
  let s' := state_after (training_step b i s) in
  let lt := float_lt_int (num_warmup_steps (args s)) (iter s) in
  args s' = args s
  /\ latent_transformer s' = lt || latent_transformer s
  /\ model_latent_transformer s' = lt || model_latent_transformer s
  /\ optimizers_built s'
     = (optimizers_built s
        + if lt then match torch_optim_Adam (lr (args s)) with
            | inl _ => 0
            | inr _ => 1
            end
          else 0)%nat
  /\ iter s' = (match outcome (training_step b i s) with
                | inr _ => iter s + 1
                | inl _ => iter s
                end).
Proof.
  intros s' lt. unfold s'. rewrite training_step_eq. cbv zeta.
  destruct (switch_error s).
  { unfold state_after, outcome; cbn [fst snd].
    rewrite switched_args, switched_latent, switched_model_latent,
      switched_built, switched_iter. auto. }
  destruct (outcome (calculate_losses _ _ _ _)) as [e|[[t r] k]];
    unfold state_after, outcome; cbn [fst snd].
  - rewrite switched_args, switched_latent, switched_model_latent,
      switched_built, switched_iter. auto.
  - cbn [args latent_transformer model_latent_transformer iter set_iter emit].
    rewrite switched_args, switched_latent, switched_model_latent,
      switched_iter.
    repeat split.
    change (optimizers_built (set_iter ?i ?x)) with (optimizers_built x).
    rewrite !optimizers_built_emit, switched_built. fold lt. cbn. lia.
Qed.

(** When a training step raises, for a total and a counter that binary64
    holds exactly: the optimizer cannot be built, or the total is 0. *)
Lemma training_step_raises (b : Batch) (i : Z) (s : TrainVQG) (e : exn) :
  Z.abs (total_training_steps (args s)) < 2 ^ 53 ->
  Z.abs (iter s) < 2 ^ 53 ->
  outcome (training_step b i s) = inl e
  <-> switch_error s = Some e
      \/ (switch_error s = None
          /\ e = ZeroDivisionError
          /\ (VQGModel_forward (model_latent_transformer (switched s)) b).2
             <> None
          /\ total_training_steps (args s) = 0).
Proof.
  intros HT Hi. rewrite training_step_eq. cbv zeta.
  destruct (switch_error s) as [e'|].
  { unfold outcome. cbn [snd]. split.
    - intros [= <-]. left. reflexivity.
    - intros [[= <-]|(D & _)]; [reflexivity|discriminate]. }
  rewrite <- (switched_args s) in HT |- *.
  rewrite <- (switched_iter s) in Hi.
  pose proof (calculate_losses_raises (switched s)
                (VQGModel_forward (model_latent_transformer (switched s)) b).1
                (VQGModel_forward (model_latent_transformer (switched s)) b).2
                r_default e HT Hi) as P.
  destruct (outcome (calculate_losses _ _ _ _)) as [e''|[[t r] k]];
    unfold outcome; cbn [snd].
  - split.
    + intros [= <-]. right. split; [reflexivity|]. apply P. reflexivity.
    + intros [D|(_ & H)]; [discriminate|]. apply P in H.
      injection H as ->. reflexivity.
  - split; [discriminate|].
    intros [D|(_ & H)]; [discriminate|]. apply P in H. discriminate.
Qed.

Lemma training_step_total (b : Batch) (i : Z) (s : TrainVQG) :
  total_training_steps (args s) <> 0 ->
  Z.abs (total_training_steps (args s)) < 2 ^ 53 ->
  Z.abs (iter s) < 2 ^ 53 ->
  (0 <= lr (args s))%R ->
  exists x, outcome (training_step b i s) = inr x.
Proof.
  intros N HT Hi Hl. destruct (outcome (training_step b i s)) as [e|x] eqn:E.
  - apply training_step_raises in E; [|assumption..].
    rewrite switch_error_None in E by exact Hl.
    destruct E as [E|(_ & _ & _ & E)]; [discriminate|contradiction].
  - exists x. reflexivity.
Qed.

(** The iterations, from [i] on, at which a step rebuilds the optimizer. *)
Lemma run_training_built (batches : list Batch) (idx : Z) (s : TrainVQG) :
  total_training_steps (args s) <> 0 ->
  Z.abs (total_training_steps (args s)) < 2 ^ 53 ->
  (0 <= lr (args s))%R ->
  0 <= iter s ->
  iter s + Z.of_nat (length batches) < 2 ^ 53 ->
  optimizers_built (state_after (run_steps training_step batches idx s))
  = (optimizers_built s
     + length (filter (fun i => float_lt_int (num_warmup_steps (args s)) i = true)
                      (seqZ (iter s) (Z.of_nat (length batches)))))%nat.
Proof.
  revert idx s. induction batches as [|b bs IH]; intros idx s N HT Hl H0 Hn.
  - simpl. unfold state_after, ret. simpl. lia.
  - rewrite run_steps_cons.
    assert (Z.abs (iter s) < 2 ^ 53) as Hi by (simpl length in Hn; lia).
    destruct (training_step_total b idx s N HT Hi Hl) as [x Hx].
    pose proof (training_step_fields b idx s) as F. cbv zeta in F.
    rewrite Hx in F. destruct F as (Fa & _ & _ & Fb & Fi).
    rewrite torch_optim_Adam_ok in Fb by exact Hl.
    rewrite (bind_ok _ _ s (state_after (training_step b idx s)) x).
    2:{ rewrite <- Hx. unfold state_after, outcome.
        destruct (training_step b idx s); reflexivity. }
    set (s1 := state_after (training_step b idx s)) in *.
    assert (forall m : M (list R),
              state_after (bind m (fun xs => ret (x :: xs)) s1)
              = state_after (m s1)) as Hb.
    { intros m. unfold bind, state_after, ret. destruct (m s1) as [s2 [e|xs]];
        reflexivity. }
    rewrite Hb, IH; [|rewrite ?Fa, ?Fi; try assumption; simpl length in Hn; lia..].
    rewrite Fa, Fb, Fi.
    replace (Z.of_nat (length (b :: bs))) with (Z.succ (Z.of_nat (length bs)))
      by (simpl length; lia).
    rewrite (seqZ_cons (iter s)) by lia. rewrite Z.pred_succ, filter_cons.
    replace (Z.succ (iter s)) with (iter s + 1) by lia.
    destruct (float_lt_int (num_warmup_steps (args s)) (iter s)) eqn:L.
    + rewrite decide_True by reflexivity. simpl. lia.
    + rewrite decide_False by discriminate. simpl. lia.
Qed.

(** With a nonzero total and a learning rate that Adam accepts, a run of
    training steps raises nothing. *)
Lemma run_training_total (batches : list Batch) (idx : Z) (s : TrainVQG) :
  total_training_steps (args s) <> 0 ->
  Z.abs (total_training_steps (args s)) < 2 ^ 53 ->
  (0 <= lr (args s))%R ->
  0 <= iter s ->
  iter s + Z.of_nat (length batches) < 2 ^ 53 ->
  exists xs, outcome (run_steps training_step batches idx s) = inr xs
             /\ length xs = length batches.
Proof.
  revert idx s. induction batches as [|b bs IH]; intros idx s N HT Hl H0 Hn.
  - exists []. split; reflexivity.
  - rewrite run_steps_cons.
    assert (Z.abs (iter s) < 2 ^ 53) as Hi by (simpl length in Hn; lia).
    destruct (training_step_total b idx s N HT Hi Hl) as [x Hx].
    pose proof (training_step_fields b idx s) as (Fa & _ & _ & _ & Fi).
    rewrite Hx in Fi.
    destruct (training_step b idx s) as [s1 o] eqn:E.
    unfold outcome, state_after in Hx, Fa, Fi. simpl in Hx, Fa, Fi. subst o.
    destruct (IH (idx + 1) s1) as (xs & Hxs & Hlen);
      [rewrite ?Fa, ?Fi; try assumption; simpl length in Hn; lia..|].
    exists (x :: xs). unfold bind. rewrite E.
    destruct (run_steps training_step bs (idx + 1) s1) as [s2 o].
    unfold outcome in Hxs. simpl in Hxs. subst o. split; [reflexivity|].
    simpl. congruence.
Qed.

(** C1 (what the code does): over a run of training steps on a fresh
    object, with a nonzero total that binary64 holds exactly and a
    learning rate that Adam accepts, an optimizer is constructed at every
    step whose iteration exceeds [num_warmup_steps], not only at the
    first one. *)
Theorem training_steps_optimizers_built (a : Args) (batches : list Batch) :
  total_training_steps a <> 0 ->
  Z.abs (total_training_steps a) < 2 ^ 53 ->
  (0 <= lr a)%R ->
  Z.of_nat (length batches) < 2 ^ 53 ->
  optimizers_built (state_after (run_steps training_step batches 0 (init a)))
  = length (filter (fun i => float_lt_int (num_warmup_steps a) i = true)
                   (seqZ 0 (Z.of_nat (length batches)))).
Proof.
  intros N HT Hl Hn.
  rewrite run_training_built; simpl; try assumption; lia.
Qed.

(** C4 (as amended): no configuration is rejected before training: the
    constructor stores [total_training_steps] unexamined.  With a total
    of 0, [calculate_losses] returns as long as the KL term is null, and
    raises [ZeroDivisionError] at the first call with a KL term; with a
    negative total (above [-2^53]) it raises nothing. *)
Theorem zero_total_steps_surfaces_in_loop :
  (forall a, args (init a) = a /\ iter (init a) = 0
             /\ latent_transformer (init a) = false)
  /\ (forall s loss r,
        total_training_steps (args s) = 0 ->
        outcome (calculate_losses loss None r s) = inr (loss, loss, 0%R))
  /\ (forall s loss k r,
        total_training_steps (args s) = 0 ->
        Z.abs (iter s) < 2 ^ 53 ->
        outcome (calculate_losses loss (Some k) r s) = inl ZeroDivisionError)
  /\ (forall s loss kld r,
        - 2 ^ 53 < total_training_steps (args s) < 0 ->
        Z.abs (iter s) < 2 ^ 53 ->
        exists x, outcome (calculate_losses loss kld r s) = inr x).
Proof.
  split; [intros a; repeat split|].
  split; [reflexivity|].
  split.
  - intros s loss k r E Hi.
    rewrite calculate_losses_zero_total by assumption. reflexivity.
  - intros s loss kld r HT Hi. apply calculate_losses_total; lia.
Qed.

(** ** The mode flag *)

Lemma calculate_losses_preserves P loss kld r :
  preserves P (calculate_losses loss kld r).
Proof.
  intros s Hs. rewrite calculate_losses_pure. exact Hs.
Qed.

Lemma decode_and_print_preserves (P : TrainVQG -> Prop) batch lim val :
  (forall l s, P s -> P (set_bleus l s)) ->
  (forall l s, P s -> P (set_msjs l s)) ->
  (forall l s, P s -> P (set_fbds l s)) ->
  preserves P (decode_and_print batch lim val).
Proof.
  intros Hb Hm Hf. unfold decode_and_print, record_score. preserve; auto.
Qed.

Lemma latent_preserved_by_exec (c : call) :
  preserves (fun s => latent_transformer s = true) (exec c).
Proof.
  destruct c; unfold exec, training_step, validation_step,
    validation_epoch_end, test_step, val_losses_append, accumulate_score,
    configure_optimizers, log;
    preserve;
    try apply calculate_losses_preserves;
    try (apply decode_and_print_preserves; intros ? ? Hs; exact Hs);
    try (intros ? Hs; exact Hs);
    try reflexivity.
Qed.

(** C8: once the latent-mode flag is true it stays true: no sequence of
    training steps (nor any other call) sets it back to false. *)
Theorem latent_mode_monotone (s : TrainVQG) (batches : list Batch) (idx : Z) :
  latent_transformer s = true ->
  latent_transformer (state_after (run_steps training_step batches idx s))
    = true
  /\ forall c, latent_transformer (state_after (exec c s)) = true.
Proof.
  intros Hs. split.
  - apply (preserves_run_steps (fun s => latent_transformer s = true));
      [|exact Hs].
    intros b j s0 H0.
    apply (latent_preserved_by_exec (TrainingStep b j)) in H0.
    unfold exec, bind, state_after in *.
    destruct (training_step b j s0) as [s1 [e|x]]; exact H0.
  - intros c. apply latent_preserved_by_exec, Hs.
Qed.

(** ** The validation accumulators *)

Lemma decode_and_print_val_losses batch lim val s :
  val_losses (state_after (decode_and_print batch lim val s)) = val_losses s.
Proof.
  apply (decode_and_print_preserves (fun x => val_losses x = val_losses s));
    auto.
Qed.

Lemma for_each_log_val_losses {A} (l : list A) (name : A -> string)
    (value : A -> R) s :
  val_losses (state_after (for_each l (fun x => log (name x) (value x)) s))
  = val_losses s.
Proof.
  apply (preserves_for_each (fun x => val_losses x = val_losses s));
    [|reflexivity].
  intros x. unfold log. apply preserves_modify. auto.
Qed.

(** A validation epoch end that returns leaves every accumulator that
    existed before it, emptied. *)
Lemma validation_epoch_end_resets batches s s' :
  validation_epoch_end batches s = (s', inr tt) ->
  val_losses s' = (fun _ => []) <$> val_losses s.
Proof.
  unfold validation_epoch_end. unfold bind at 1.
  unfold lift at 1. destruct (py_getitem batches 0) as [e|b]; [discriminate|].
  unfold bind at 1.
  pose proof (decode_and_print_val_losses b print_lim_default true s) as E1.
  destruct (decode_and_print b print_lim_default true s) as [s1 [e|scores]];
    [discriminate|].
  unfold state_after in E1. simpl in E1.
  unfold bind at 1.
  pose proof (for_each_log_val_losses scores
                (fun kv => "val_" +:+ kv.1) (fun kv => rounded kv.2) s1) as E2.
  destruct (for_each scores _ s1) as [s2 [e|[]]]; [discriminate|].
  unfold state_after in E2. simpl in E2.
  unfold bind, get, modify, ret. simpl. intros [= <-]. simpl. congruence.
Qed.

Lemma insert_keeps_key (m : gmap string (list R)) k v j :
  is_Some (m !! j) -> is_Some (<[k := v]> m !! j).
Proof.
  intros Hj. rewrite lookup_insert_is_Some.
  destruct (decide (k = j)); auto.
Qed.

Lemma val_losses_append_keys k x :
  preserves val_keys_present (val_losses_append k x).
Proof.
  intros s (H1 & H2 & H3). unfold val_losses_append, bind, get, state_after.
  simpl. destruct (val_losses s !! k) as [l|] eqn:E; simpl.
  - unfold val_keys_present. simpl.
    split; [|split]; apply insert_keeps_key; assumption.
  - unfold val_keys_present. auto.
Qed.

Lemma reset_keeps_keys :
  preserves val_keys_present
    (bind get (fun self =>
       bind (modify (set_val_losses ((fun _ => []) <$> val_losses self)))
            (fun _ => ret tt))).
Proof.
  intros s (H1 & H2 & H3). unfold val_keys_present. simpl.
  rewrite !lookup_fmap, !fmap_is_Some. auto.
Qed.

Lemma exec_keeps_val_keys (c : call) : preserves val_keys_present (exec c).
Proof.
  destruct c as [b i|b i|bs|b i|]; unfold exec.
  - unfold training_step, configure_optimizers, log. preserve;
      try apply calculate_losses_preserves; intros ? Hs; exact Hs.
  - unfold validation_step, log. preserve;
      try apply calculate_losses_preserves;
      try apply val_losses_append_keys; intros ? Hs; exact Hs.
  - unfold validation_epoch_end.
    apply preserves_bind; [apply preserves_lift|intros b].
    apply preserves_bind;
      [apply decode_and_print_preserves; intros ? ? Hs; exact Hs|intros sc].
    apply preserves_bind; [|intros _; apply reset_keeps_keys].
    apply preserves_for_each. intros x. unfold log. apply preserves_modify.
    intros ? Hs. exact Hs.
  - unfold test_step, accumulate_score. preserve;
      try (apply decode_and_print_preserves; intros ? ? Hs; exact Hs);
      intros ? Hs; exact Hs.
  - unfold configure_optimizers. preserve. intros ? Hs; exact Hs.
Qed.

Lemma reachable_val_keys s : reachable s -> val_keys_present s.
Proof.
  induction 1 as [a|s c _ IH].
  - unfold val_keys_present, init. simpl. repeat split; eexists; reflexivity.
  - apply exec_keeps_val_keys, IH.
Qed.

(** C7: when [validation_epoch_end] returns, each of the three
    validation-loss accumulators is the empty list, whatever the earlier
    calls (validation steps among them) had appended; no entry of
    [val_losses] keeps a value. *)
Theorem validation_accumulators_reset (s s' : TrainVQG)
    (batches : list Batch) :
  reachable s ->
  validation_epoch_end batches s = (s', inr tt) ->
  val_losses s' !! "total loss" = Some []
  /\ val_losses s' !! "rec loss" = Some []
  /\ val_losses s' !! "kl loss" = Some []
  /\ forall k l, val_losses s' !! k = Some l -> l = [].
Proof.
  intros Hr He. apply reachable_val_keys in Hr.
  destruct Hr as ([l1 H1] & [l2 H2] & [l3 H3]).
  rewrite (validation_epoch_end_resets _ _ _ He).
  rewrite !lookup_fmap, H1, H2, H3. simpl. repeat split.
  intros k l. rewrite lookup_fmap.
  destruct (val_losses s !! k); simpl; congruence.
Qed.

(** ** Decoding, scoring and the best-score history *)

Lemma for_each_total {A} (l : list A) (body : A -> M unit) s :
  (forall x s0, outcome (body x s0) = inr tt) ->
  outcome (for_each l body s) = inr tt.
Proof.
  intros Hb. revert s. induction l as [|x l IH]; intros s; [reflexivity|].
  simpl. specialize (Hb x s). unfold bind, outcome in *.
  destruct (body x s) as [s1 [e|[]]]; simpl in *; [discriminate|apply IH].
Qed.

Lemma record_score_total kv s : outcome (record_score kv s) = inr tt.
Proof.
  unfold record_score, bind, get, outcome. simpl.
  repeat (destruct (decide _)); reflexivity.
Qed.

Lemma accumulate_score_total kv s : outcome (accumulate_score kv s) = inr tt.
Proof.
  unfold accumulate_score, bind, get, outcome. simpl.
  destruct (test_scores s !! kv.1); reflexivity.
Qed.

(** [decode_and_print] in one equation. *)
Lemma decode_and_print_eq (batch : Batch) (lim : Z) (val : bool) s :
  decode_and_print batch lim val s =
  match decode_examples lim batch (decoded_inputs batch)
          (decoded_questions batch) 0
          (decode_greedy (model_latent_transformer s) batch) [] [] with
  | inl e => (s, inl e)
  | inr (gts, preds) =>
      let scores := all_scores gts preds in
      let s1 := recorded val scores s in
      match py_max (bleus s1) with
      | inl e => (s1, inl e)
      | inr _ =>
          match py_max (msjs s1) with
          | inl e => (s1, inl e)
          | inr _ => (s1, inr scores)
          end
      end
  end.
Proof.
  unfold decode_and_print. unfold bind at 1. unfold get at 1.
  unfold bind at 1. unfold lift at 1.
  fold (decoded_inputs batch). fold (decoded_questions batch).
  destruct (decode_examples _ _ _ _ _ _ _ _) as [e|[gts preds]];
    [reflexivity|].
  fold (all_scores gts preds). cbv zeta. unfold bind at 1.
  assert ((if val then for_each (all_scores gts preds) record_score
           else ret tt) s
          = (recorded val (all_scores gts preds) s, inr tt)) as ->.
  { unfold recorded. destruct val; [|reflexivity].
    pose proof (for_each_total (all_scores gts preds) record_score s
                  record_score_total) as Ht.
    unfold outcome, state_after in *.
    destruct (for_each _ _ s) as [s1 o]. simpl in *. congruence. }
  unfold bind, get, lift. simpl.
  destruct (py_max (bleus _)); [reflexivity|].
  destruct (py_max (msjs _)); reflexivity.
Qed.

(** C9: the best score of a watched key is looked up with [max] over its
    history; when the history of [Bleu_4] or of [msj_4] holds no
    observation at that point, [decode_and_print] raises ([ValueError],
    the empty-history error of Python's [max]) and returns no scores;
    with both histories non-empty it returns the scores. *)
Theorem best_of_empty_history_raises (batch : Batch) (lim : Z) (val : bool)
    (s : TrainVQG) (gts preds : list string) :
  decode_examples lim batch (decoded_inputs batch) (decoded_questions batch)
    0 (decode_greedy (model_latent_transformer s) batch) [] []
    = inr (gts, preds) ->
  let s1 := recorded val (all_scores gts preds) s in
  py_max [] = inl ValueError
  /\ (bleus s1 = [] \/ msjs s1 = [] ->
      decode_and_print batch lim val s = (s1, inl ValueError))
  /\ (bleus s1 <> [] -> msjs s1 <> [] ->
      decode_and_print batch lim val s = (s1, inr (all_scores gts preds))).
Proof.
  intros E s1. split; [reflexivity|].
  rewrite decode_and_print_eq, E. cbv zeta. fold s1. split.
  - intros [Hb|Hm].
    + rewrite Hb. reflexivity.
    + rewrite Hm. destruct (py_max (bleus s1)) as [e|x] eqn:Eb.
      * destruct (bleus s1); [injection Eb as <-; reflexivity|discriminate].
      * reflexivity.
  - intros Hb Hm. destruct (bleus s1); [contradiction|].
    destruct (msjs s1); [contradiction|]. reflexivity.
Qed.

(** ** The decoding loop *)

Lemma py_getitem_error {A} (l : list A) i e :
  py_getitem l i = inl e -> e = IndexError.
Proof. unfold py_getitem. destruct (l !! i); congruence. Qed.

(** The loop body raises nothing but [IndexError]. *)
Lemma decode_example_error lim (batch : Batch) dis dqs i sentence e :
  decode_example lim batch dis dqs i sentence = inl e -> e = IndexError.
Proof.
  unfold decode_example.
  destruct (py_getitem dis i) as [e1|di] eqn:E1;
    [intros [= <-]; eapply py_getitem_error, E1|].
  destruct (py_getitem dqs i) as [e2|dq] eqn:E2;
    [intros [= <-]; eapply py_getitem_error, E2|].
  destruct (Z.of_nat i <? lim); [|discriminate].
  destruct (py_getitem (image_ids batch) i) as [e3|id] eqn:E3;
    [intros [= <-]; eapply py_getitem_error, E3|].
  destruct (py_getitem (PyStr.split _) 0) as [e4|c] eqn:E4;
    [intros [= <-]; eapply py_getitem_error, E4|discriminate].
Qed.

Lemma decode_examples_error lim (batch : Batch) dis dqs sentences :
  forall i gts preds e,
    decode_examples lim batch dis dqs i sentences gts preds = inl e ->
    e = IndexError.
Proof.
  induction sentences as [|sentence rest IH]; intros i gts preds e;
    [discriminate|].
  simpl. destruct (decode_example lim batch dis dqs i sentence)
    as [e1|[[rq gq] pr]] eqn:E1.
  - intros [= <-]. eapply decode_example_error, E1.
  - apply IH.
Qed.

(** An example among the first [lim] whose filtered input is empty makes
    the loop body raise. *)
Lemma decode_example_blank lim (batch : Batch) dqs i sentence ids :
  Z.of_nat i < lim ->
  input_ids batch !! i = Some ids ->
  filter_special_tokens tokenizer (decode tokenizer ids) = "" ->
  decode_example lim batch (decoded_inputs batch) dqs i sentence
    = inl IndexError.
Proof.
  intros Hlim Hids Hblank. unfold decode_example, decoded_inputs.
  unfold py_getitem at 1. rewrite list_lookup_fmap, Hids. simpl.
  rewrite Hblank.
  destruct (py_getitem dqs i) as [e2|dq] eqn:E2;
    [f_equal; eapply py_getitem_error, E2|].
  apply Z.ltb_lt in Hlim. rewrite Hlim.
  destruct (py_getitem (image_ids batch) i) as [e3|id] eqn:E3;
    [f_equal; eapply py_getitem_error, E3|].
  reflexivity.
Qed.

Lemma decode_examples_fail lim (batch : Batch) dis dqs sentences :
  forall i j gts preds sentence,
    sentences !! j = Some sentence ->
    decode_example lim batch dis dqs (i + j) sentence = inl IndexError ->
    decode_examples lim batch dis dqs i sentences gts preds = inl IndexError.
Proof.
  induction sentences as [|s0 rest IH]; intros i j gts preds sentence Hj Hf;
    [discriminate|].
  simpl. destruct (decode_example lim batch dis dqs i s0)
    as [e1|[[rq gq] pr]] eqn:E1.
  - f_equal. eapply decode_example_error, E1.
  - destruct j as [|j].
    + simpl in Hj. injection Hj as ->. rewrite Nat.add_0_r in Hf. congruence.
    + simpl in Hj. apply (IH (S i) j _ _ sentence Hj).
      replace (S i + j)%nat with (i + S j)%nat by lia. exact Hf.
Qed.

(** C10: if, for one of the first [print_lim] decoded sentences, the
    decoded input filters to the empty string, [decode_and_print] raises
    [IndexError] (at [curr_input.split()[0]], or at an earlier subscript
    of the loop) and produces no scores; the object is left as it was. *)
Theorem blank_input_raises_index_error (batch : Batch) (lim : Z) (val : bool)
    (s : TrainVQG) (i : nat) (ids : TokenIds) :
  (i < length (decode_greedy (model_latent_transformer s) batch))%nat ->
  Z.of_nat i < lim ->
  input_ids batch !! i = Some ids ->
  filter_special_tokens tokenizer (decode tokenizer ids) = "" ->
  decode_and_print batch lim val s = (s, inl IndexError).
Proof.
  intros Hi Hlim Hids Hblank. rewrite decode_and_print_eq.
  destruct (lookup_lt_is_Some_2 _ _ Hi) as [sentence Hs].
  rewrite (decode_examples_fail lim batch _ _ _ 0%nat i [] [] sentence Hs);
    [reflexivity|].
  simpl. eapply decode_example_blank; eassumption.
Qed.

(** ** The test-score accumulator *)

Lemma dict_get_None {V} k (d : list (string * V)) :
  k ∉ d.*1 -> dict_get k d = None.
Proof.
  induction d as [|[k' v] d IH]; intros Hk; [reflexivity|].
  simpl in *. apply not_elem_of_cons in Hk as [Hne Hk].
  rewrite decide_False by (intros ->; apply Hne; reflexivity). apply IH, Hk.
Qed.

Lemma accumulate_scores_lookup (scores : list (string * R)) :
  forall s k,
    NoDup scores.*1 ->
    test_scores (state_after (for_each scores accumulate_score s)) !! k
    = match dict_get k scores with
      | Some v => Some (bump (test_scores s !! k) v)
      | None => test_scores s !! k
      end.
Proof.
  induction scores as [|[k0 v0] rest IH]; intros s k Hnd; [reflexivity|].
  apply NoDup_cons in Hnd as [Hk0 Hnd].
  set (s1 := set_test_scores
               (<[k0 := bump (test_scores s !! k0) v0]> (test_scores s)) s).
  assert (for_each ((k0, v0) :: rest) accumulate_score s
          = for_each rest accumulate_score s1) as ->.
  { simpl. unfold bind at 1. unfold accumulate_score at 1.
    unfold bind, get, modify, s1, bump. simpl.
    destruct (test_scores s !! k0); reflexivity. }
  rewrite IH by exact Hnd. simpl.
  destruct (decide (k0 = k)) as [->|Hne].
  - rewrite dict_get_None by exact Hk0. unfold s1. simpl.
    apply lookup_insert_eq.
  - unfold s1. simpl. rewrite lookup_insert_ne by exact Hne. reflexivity.
Qed.

Lemma decode_and_print_test_scores batch lim val s :
  test_scores (state_after (decode_and_print batch lim val s))
  = test_scores s.
Proof.
  apply (decode_and_print_preserves (fun x => test_scores x = test_scores s));
    auto.
Qed.

(** A test step that returns has applied [bump] to the entry of every key
    of its scores, and to no other. *)
Lemma test_step_lookup (b : Batch) i s s' scores k :
  test_step b i s = (s', inr scores) ->
  NoDup scores.*1 ->
  test_scores s' !! k
  = match dict_get k scores with
    | Some v => Some (bump (test_scores s !! k) v)
    | None => test_scores s !! k
    end.
Proof.
  unfold test_step. unfold bind at 1.
  pose proof (decode_and_print_test_scores b print_lim_default false s) as E1.
  destruct (decode_and_print b print_lim_default false s) as [s1 [e|sc]];
    [discriminate|].
  unfold state_after in E1. simpl in E1.
  pose proof (accumulate_scores_lookup sc s1 k) as E2.
  unfold bind, state_after in *.
  destruct (for_each sc accumulate_score s1) as [s2 [e|[]]]; [discriminate|].
  simpl in *. intros [= <- <-] Hnd. rewrite E2, E1 by exact Hnd. reflexivity.
Qed.

Lemma run_test_steps_lookup (bs : list Batch) :
  forall idx s s' outs k,
    run_steps test_step bs idx s = (s', inr outs) ->
    Forall (fun sc => NoDup sc.*1) outs ->
    length outs = length bs
    /\ test_scores s' !! k = after_scores k (test_scores s !! k) outs.
Proof.
  induction bs as [|b bs IH]; intros idx s s' outs k.
  - simpl. unfold ret. intros [= <- <-] _. split; reflexivity.
  - rewrite run_steps_cons. unfold bind at 1.
    destruct (test_step b idx s) as [s1 [e|sc]] eqn:E1; [discriminate|].
    unfold bind at 1.
    destruct (run_steps test_step bs (idx + 1) s1) as [s2 [e|rest]] eqn:E2;
      [discriminate|].
    unfold ret. intros [= <- <-] Hnd.
    apply Forall_cons in Hnd as [Hsc Hrest].
    destruct (IH _ _ _ _ k E2 Hrest) as [Hlen Hlook].
    split; [simpl; congruence|].
    rewrite Hlook, (test_step_lookup _ _ _ _ _ k E1 Hsc). reflexivity.
Qed.

Lemma after_scores_Some k l outs :
  after_scores k (Some l) outs = Some (l ++ omap (dict_get k) outs).
Proof.
  revert l. induction outs as [|sc outs IH]; intros l; simpl.
  - rewrite app_nil_r. reflexivity.
  - unfold after_scores in *. simpl. destruct (dict_get k sc) as [v|]; simpl.
    + rewrite IH, <- app_assoc. reflexivity.
    + apply IH.
Qed.

Lemma after_scores_None k outs :
  after_scores k None outs
  = match omap (dict_get k) outs with
    | [] => None
    | _ :: later => Some later
    end.
Proof.
  induction outs as [|sc outs IH]; [reflexivity|].
  unfold after_scores in *. simpl. destruct (dict_get k sc) as [v|]; simpl.
  - apply (after_scores_Some k []).
  - exact IH.
Qed.

(** C3: over a run of test steps on an object that has no entry for the
    metric [k] yet, the score of the first step that produces [k] is not
    stored (the step only creates the empty entry) and the score of every
    later step that produces [k] is appended; so when each of the [n >= 1]
    steps produces [k], the entry holds [n - 1] values. *)
Theorem test_scores_skip_first_occurrence (bs : list Batch) (idx : Z)
    (s s' : TrainVQG) (outs : list (list (string * R))) (k : string) :
  test_scores s !! k = None ->
  run_steps test_step bs idx s = (s', inr outs) ->
  Forall (fun sc => NoDup sc.*1) outs ->
  test_scores s' !! k
  = match omap (dict_get k) outs with
    | [] => None
    | _ :: later => Some later
    end
  /\ (Forall (fun sc => is_Some (dict_get k sc)) outs -> bs <> [] ->
      exists vs, test_scores s' !! k = Some vs
                 /\ length vs = (length bs - 1)%nat).
Proof.
  intros Hk Hrun Hnd.
  destruct (run_test_steps_lookup bs idx s s' outs k Hrun Hnd) as [Hlen Hl].
  rewrite Hk, after_scores_None in Hl. split; [exact Hl|].
  intros Hall Hne. rewrite Hl.
  assert (length (omap (dict_get k) outs) = length outs) as Hom.
  { clear -Hall. induction Hall as [|sc outs [v Hv] _ IH]; [reflexivity|].
    cbn [omap list_omap]. rewrite Hv. simpl. f_equal. exact IH. }
  destruct (omap (dict_get k) outs) as [|v later].
  - destruct bs; [contradiction|]. simpl in *. lia.
  - exists later. split; [reflexivity|]. simpl in Hom. lia.
Qed.

(** ** Filtering *)

Lemma index_take_truncate sep (l : list string) :
  match PyStr.index sep l with
  | Some i => take i l
  | None => l
  end = truncate_at sep l.
Proof.
  induction l as [|x l IH]; [reflexivity|].
  simpl. destruct (decide (x = sep)); [reflexivity|].
  destruct (PyStr.index sep l) as [i|]; simpl; f_equal; exact IH.
Qed.

Lemma keep_loop_filter (specials : list string) (l acc : list string) :
  foldl (fun filtered token =>
           if bool_decide (token ∈ specials) then filtered
           else filtered ++ [token]) acc l
  = acc ++ filter (fun t => t ∉ specials) l.
Proof.
  revert acc. induction l as [|x l IH]; intros acc; simpl.
  - rewrite app_nil_r. reflexivity.
  - rewrite IH, filter_cons. destruct (decide (x ∈ specials)) as [Hin|Hout].
    + rewrite bool_decide_eq_true_2 by exact Hin.
      rewrite decide_False by auto. reflexivity.
    + rewrite bool_decide_eq_false_2 by exact Hout.
      rewrite decide_True by exact Hout. rewrite <- app_assoc. reflexivity.
Qed.

Lemma filter_special_tokens_spec {T} (tok : BertTokenizer T) (d : string) :
  filter_special_tokens tok d = filter_spec tok d.
Proof.
  unfold filter_special_tokens, filter_spec.
  rewrite index_take_truncate, keep_loop_filter. reflexivity.
Qed.

(** An input of structural tokens only filters to the empty string. *)
Lemma filter_all_special {T} (tok : BertTokenizer T) (d : string) :
  Forall (fun t => t ∈ all_special_tokens tok)
         (truncate_at (sep_token tok) (PyStr.split d)) ->
  filter_special_tokens tok d = "".
Proof.
  intros Hall. rewrite filter_special_tokens_spec. unfold filter_spec.
  replace (filter _ _) with (@nil string); [reflexivity|].
  symmetry. induction Hall as [|x l Hx _ IH]; [reflexivity|].
  rewrite filter_cons, decide_False by auto. exact IH.
Qed.




End Properties.





(** The end-to-end scenario of C2: reconstruction loss 2.0, [kld] 1.0,
    iteration 0 and 4 total steps give the triple (2.5, 2.0, 1.0).  With
    16 total steps, iteration 1 is at phase 1/4 and iteration 3 at phase
    3/4, where the weight is 1.  With 12 total steps, iteration 1 is at
    the float nearest to 1/3. *)
Lemma calculate_losses_latent_witness :
  let s := init (Example.config 0 4) in
  let s1 := set_iter 1 (init (Example.config 0 16)) in
  let s3 := set_iter 3 (init (Example.config 0 16)) in
  let s' := set_iter 1 (init (Example.config 0 12)) in
  let third := (6004799503160661 # 18014398509481984)%Q in
  (0 < total_training_steps (args s) < 2 ^ 53 /\ 0 <= iter s < 2 ^ 53)
  /\ calculate_losses 2 (Some 1%R) r_default s
     = (s, inr ((5 / 2)%R, 2%R, 1%R))
  /\ calculate_losses 2 (Some 1%R) r_default s1
     = (s1, inr ((2 + 1 / (1 + exp (- Q2R (1 # 4))) * 1)%R, 2%R, 1%R))
  /\ calculate_losses 2 (Some 1%R) r_default s3
     = (s3, inr (3%R, 2%R, 1%R))
  /\ calculate_losses 2 (Some 1%R) r_default s'
     = (s', inr ((2 + 1 / (1 + exp (- Q2R third)) * 1)%R, 2%R, 1%R)).
Proof.
  intros s s1 s3 s' third. split; [split; split; reflexivity || discriminate|].
  split; [|split; [|split]].
  - destruct (calculate_losses_latent s 2 1)
      as (beta & E & _ & _ & _ & _ & _ & _ & Hb);
      [split; reflexivity || discriminate..|].
    rewrite E, Hb by (vm_compute; reflexivity).
    replace (2 + 1 / 2 * 1)%R with (5 / 2)%R by lra. reflexivity.
  - destruct (calculate_losses_latent s1 2 1)
      as (beta & E & _ & _ & _ & _ & Hle & _ & _);
      [split; reflexivity || discriminate..|].
    cbv zeta in Hle.
    match type of Hle with
    | context [Q2R ?t] =>
        assert (t = (1 # 4)%Q) as Et by (vm_compute; reflexivity);
        rewrite Et in Hle
    end.
    rewrite E, Hle; [reflexivity|]. unfold Q2R. simpl. lra.
  - destruct (calculate_losses_latent s3 2 1)
      as (beta & E & _ & _ & _ & _ & _ & Hgt & _);
      [split; reflexivity || discriminate..|].
    cbv zeta in Hgt.
    match type of Hgt with
    | context [Q2R ?t] =>
        assert (t = (3 # 4)%Q) as Et by (vm_compute; reflexivity);
        rewrite Et in Hgt
    end.
    rewrite E, Hgt by (unfold Q2R; simpl; lra).
    replace (2 + 1 * 1)%R with 3%R by lra. reflexivity.
  - destruct (calculate_losses_latent s' 2 1)
      as (beta & E & _ & _ & _ & _ & Hle & _ & _);
      [split; reflexivity || discriminate..|].
    cbv zeta in Hle.
    match type of Hle with
    | context [Q2R ?t] =>
        assert (t = third) as Et by (vm_compute; reflexivity);
        rewrite Et in Hle
    end.
    rewrite E, Hle; [reflexivity|]. unfold third, Q2R. simpl. lra.
Defined.

(** C2 fails as stated.  A total of [10^400] is positive, yet the call
    raises [OverflowError]: a quarter of it is no float.  And with a
    total of [2^60 + 4], whose quarter [2^58 + 1] rounds to the float
    [2^58], iteration [2^58] is treated as a cycle boundary and the
    triple is (2.5, 2.0, 1.0), where the phase [2^58 / (2^58 + 1)] of the
    claim exceeds 0.5 and asks for (3.0, 2.0, 1.0). *)
Lemma calculate_losses_latent_fails_on_large_totals :
  let big := init (Example.config 0 (10 ^ 400)) in
  let s := set_iter (2 ^ 58) (init (Example.config 0 (2 ^ 60 + 4))) in
  (0 < total_training_steps (args big)
   /\ outcome (calculate_losses 2 (Some 1%R) r_default big)
      = inl OverflowError)
  /\ (0 < total_training_steps (args s)
      /\ total_training_steps (args s) = 4 * (2 ^ 58 + 1)
      /\ iter s mod (2 ^ 58 + 1) = 2 ^ 58
      /\ (1 / 2 < IZR (2 ^ 58) / IZR (2 ^ 58 + 1))%R
      /\ calculate_losses 2 (Some 1%R) r_default s
         = (s, inr ((5 / 2)%R, 2%R, 1%R))
      /\ (5 / 2 <> 2 + 1 * 1)%R).
Proof.
  intros big s. split; [split; [reflexivity|]|].
  - rewrite calculate_losses_eq.
    assert (phase (total_training_steps (args big)) (iter big)
            = inl OverflowError) as -> by (vm_compute; reflexivity).
    reflexivity.
  - split; [reflexivity|]. split; [reflexivity|].
    split; [vm_compute; reflexivity|].
    split; [|split; [|lra]].
    + rewrite plus_IZR.
      assert (1 < IZR (2 ^ 58))%R as Hy by (apply (IZR_lt 1); reflexivity).
      revert Hy. generalize (IZR (2 ^ 58)) as y. intros y Hy.
      assert (y / (y + 1) * (y + 1) = y)%R as Hz by (field; lra).
      revert Hz. generalize (y / (y + 1))%R as z. intros z Hz. nra.
    + rewrite calculate_losses_eq.
      assert (phase (total_training_steps (args s)) (iter s) = inr 0%Q)
        as -> by (vm_compute; reflexivity).
      unfold r_default.
      replace (Q2R 0) with 0%R by (unfold Q2R; simpl; lra).
      destruct (Rle_dec 0 (5 / 10)) as [_|N]; [|exfalso; apply N; lra].
      rewrite sigmoid_0.
      replace (2 + 1 / 2 * 1)%R with (5 / 2)%R by lra. reflexivity.
Qed.

(** Three training steps with [num_warmup_steps = 0]: the steps at
    iterations 1 and 2 both construct an optimizer. *)
Lemma training_steps_optimizers_built_witness :
  total_training_steps (Example.config 0 4) <> 0
  /\ optimizers_built
       (state_after
          (run_steps (training_step (W := Example.world))
             [Example.good_batch; Example.good_batch; Example.good_batch] 0
             (init (Example.config 0 4)))) = 2%nat.
Proof.
  split; [discriminate|].
  rewrite (training_steps_optimizers_built (W := Example.world));
    [reflexivity|discriminate|reflexivity|simpl; lra|reflexivity].
Defined.

(** C4 fails as stated: a configuration with [total_training_steps = 0]
    is not rejected.  The object is constructed, the first training step
    (plain mode) returns its loss, and the division by zero is met at the
    second step, the first one with a KL term.  A negative total is not
    rejected either: its training steps raise nothing. *)
Lemma zero_total_steps_not_rejected :
  let a := Example.config 0 0 in
  let step := training_step (W := Example.world) in
  total_training_steps a <= 0
  /\ outcome (step Example.good_batch 0 (init a)) = inr 2%R
  /\ outcome (run_steps step [Example.good_batch; Example.good_batch] 0
                (init a))
     = inl ZeroDivisionError
  /\ total_training_steps (Example.config 0 (-4)) <= 0
  /\ exists xs,
       outcome (run_steps step [Example.good_batch; Example.good_batch] 0
                  (init (Example.config 0 (-4)))) = inr xs.
Proof.
  intros a step.
  assert (outcome (step Example.good_batch 0 (init a)) = inr 2%R) as H1.
  { unfold step. rewrite training_step_eq. cbv zeta.
    rewrite switch_error_None by (simpl; lra). reflexivity. }
  split; [discriminate|].
  split; [exact H1|]. split.
  - rewrite run_steps_cons.
    rewrite (bind_ok _ _ _ (state_after (step Example.good_batch 0 (init a)))
               2%R)
      by (rewrite <- H1; apply surjective_pairing).
    cbv beta. unfold bind at 1. rewrite run_steps_cons.
    erewrite bind_raise; [reflexivity|].
    rewrite (surjective_pairing (step _ _ _)). f_equal.
    pose proof (training_step_fields (W := Example.world)
                  Example.good_batch 0 (init a)) as (Fa & _ & Fm & _ & Fi).
    fold step in Fa, Fm, Fi. rewrite H1 in Fi.
    apply (training_step_raises (W := Example.world));
      [rewrite Fa; reflexivity|rewrite Fi; reflexivity|].
    right. split; [apply switch_error_None; rewrite Fa; simpl; lra|].
    split; [reflexivity|].
    split; [|rewrite Fa; reflexivity].
    rewrite switched_model_latent, Fa, Fi. discriminate.
  - split; [discriminate|].
    destruct (run_training_total (W := Example.world)
                [Example.good_batch; Example.good_batch] 0
                (init (Example.config 0 (-4)))) as (xs & Hxs & _);
      [discriminate|reflexivity|simpl; lra|discriminate|reflexivity|].
    exists xs. exact Hxs.
Qed.

(** Three test steps that each score [Bleu_4]: two values are kept. *)
Lemma test_scores_skip_first_occurrence_witness :
  let bs := [Example.good_batch; Example.good_batch; Example.good_batch] in
  let s' := state_after (run_steps (test_step (W := Example.world)) bs 0
                           Example.validated) in
  test_scores Example.validated !! "Bleu_4" = None
  /\ exists vs, test_scores s' !! "Bleu_4" = Some vs /\ length vs = 2%nat.
Proof.
  intros bs s'. split; [reflexivity|].
  set (sc := [("Bleu_4", (1 / 2)%R); ("msj_4", (1 / 4)%R)] : list (string * R)).
  destruct (test_scores_skip_first_occurrence (W := Example.world)
              bs 0 Example.validated s' [sc; sc; sc] "Bleu_4")
    as [_ Hn].
  - reflexivity.
  - vm_compute. reflexivity.
  - repeat apply Forall_cons_2; try apply Forall_nil_2;
      apply (bool_decide_unpack _); vm_compute; exact I.
  - apply Hn; [|discriminate].
    repeat constructor; eexists; reflexivity.
Defined.


(** Two validation steps appended two losses each; the epoch end empties
    the accumulators. *)
Lemma validation_accumulators_reset_witness :
  let s0 := init (Example.config 5 4) in
  let s1 := state_after
              (exec (W := Example.world)
                 (ValidationStep Example.good_batch 0) s0) in
  let s2 := state_after
              (exec (W := Example.world)
                 (ValidationStep Example.good_batch 1) s1) in
  let s' := state_after
              (validation_epoch_end (W := Example.world)
                 [Example.good_batch] s2) in
  val_losses s2 !! "total loss" = Some [2%R; 2%R]
  /\ val_losses s' !! "total loss" = Some []
  /\ val_losses s' !! "rec loss" = Some []
  /\ val_losses s' !! "kl loss" = Some [].
Proof.
  intros s0 s1 s2 s'. split; [vm_compute; reflexivity|].
  destruct (validation_accumulators_reset (W := Example.world) s2 s'
              [Example.good_batch]) as (H1 & H2 & H3 & _).
  - do 2 apply reachable_call. apply reachable_init.
  - vm_compute. reflexivity.
  - auto.
Defined.

(** After the switch at iteration 0 (warm-up of -1 steps), two more
    training steps leave the flag set. *)
Lemma latent_mode_monotone_witness :
  let s := state_after
             (training_step (W := Example.world) Example.good_batch 0
                (init (Example.config (-1) 4))) in
  latent_transformer s = true
  /\ latent_transformer
       (state_after
          (run_steps (training_step (W := Example.world))
             [Example.good_batch; Example.good_batch] 1 s)) = true.
Proof.
  intros s.
  assert (latent_transformer s = true) as Hs.
  { unfold s.
    destruct (training_step_fields (W := Example.world) Example.good_batch 0
                (init (Example.config (-1) 4))) as (_ & -> & _).
    reflexivity. }
  split; [exact Hs|].
  apply (latent_mode_monotone (W := Example.world) s _ 1 Hs).
Defined.

(** A test-mode evaluation on a fresh object, before any validation pass:
    no [Bleu_4] observation exists, and the call raises. *)
Lemma best_of_empty_history_raises_witness :
  let s := init (Example.config 0 4) in
  bleus s = []
  /\ decode_and_print (W := Example.world) Example.good_batch 20 false s
     = (s, inl ValueError).
Proof.
  intros s. split; [reflexivity|].
  destruct (best_of_empty_history_raises (W := Example.world)
              Example.good_batch 20 false s ["cat"] ["what is it"])
    as (_ & Hraise & _).
  - vm_compute. reflexivity.
  - apply Hraise. left. reflexivity.
Defined.

(** An input of [[CLS] [SEP] [PAD] [PAD]] filters to the empty string,
    and the evaluation of its batch raises [IndexError]. *)
Lemma blank_input_raises_index_error_witness :
  filter_special_tokens Example.bert
    (decode Example.bert [101; 102; 0; 0]) = ""
  /\ decode_and_print (W := Example.world) Example.blank_batch 20 true
       Example.validated
     = (Example.validated, inl IndexError).
Proof.
  split; [reflexivity|].
  apply (blank_input_raises_index_error (W := Example.world)
           Example.blank_batch 20 true Example.validated 0 [101; 102; 0; 0]).
  - vm_compute. lia.
  - reflexivity.
  - reflexivity.
  - reflexivity.
Defined.

(** * Further properties of the training wrapper *)

Section Schedule.

(** X1: with a non-null [kld], a total [0 < T < 2^53] and a counter
    [0 <= iter < 2^53], the weight [beta] that [calculate_losses] puts
    on the KL term lies between 1/2 and 1, for every threshold [r]. *)
Theorem kl_weight_between_half_and_one (s : TrainVQG) (loss k r : R) :
  0 < total_training_steps (args s) < 2 ^ 53 ->
  0 <= iter s < 2 ^ 53 ->
  exists beta : R,
    calculate_losses loss (Some k) r s
      = (s, inr ((loss + beta * k)%R, loss, k))
    /\ (1 / 2 <= beta <= 1)%R.
Proof.
  intros HT Hi.
  destruct (phase_exact _ _ HT Hi) as (E & Hm0 & Hm1).
  pose proof (phase_nonneg _ _ Hm0 Hm1) as Ht.
  rewrite calculate_losses_eq, E.
  eexists. split; [reflexivity|].
  destruct (Rle_dec _ r); [apply sigmoid_range; exact Ht|lra].
Qed.

(** X2: the schedule is cyclic: when [total_training_steps = 4 * c] with
    [c] positive, and binary64 holds the total and both counters
    exactly, the losses computed at iteration [i + c] are those computed
    at iteration [i]. *)
Theorem schedule_repeats_every_quarter (s s' : TrainVQG) (c : Z)
    (loss : R) (kld : option R) (r : R) :
  args s' = args s ->
  total_training_steps (args s) = 4 * c ->
  0 < c ->
  4 * c < 2 ^ 53 ->
  0 <= iter s ->
  iter s' = iter s + c ->
  iter s' < 2 ^ 53 ->
  outcome (calculate_losses loss kld r s')
  = outcome (calculate_losses loss kld r s).
Proof.
  intros Ha HT Hc Hb H0 Hi Hb'. destruct kld as [k|]; [|reflexivity].
  rewrite !calculate_losses_eq, Ha, HT, Hi. unfold outcome. cbn [snd].
  destruct (phase_quarter c (iter s) Hc Hb ltac:(lia)) as (t & -> & Et).
  destruct (phase_quarter c (iter s + c) Hc Hb ltac:(lia)) as (t' & -> & Et').
  assert (Q2R t' = Q2R t) as ->; [|reflexivity].
  apply Qeq_eqR. rewrite Et, Et'.
  replace ((iter s + c) mod c) with (iter s mod c); [reflexivity|].
  symmetry. replace (iter s + c) with (iter s + 1 * c) by lia.
  apply Z.mod_add. lia.
Qed.

End Schedule.

Section Runs.

Context {DT : DataTypes} {W : Collaborators}.

(** The state after a run: the first step's, if it raised; else the state
    after the rest of the run from there. *)
Lemma run_steps_state {A} (step : Batch -> Z -> M A) b bs i s :
  state_after (run_steps step (b :: bs) i s)
  = match outcome (step b i s) with
    | inl _ => state_after (step b i s)
    | inr _ => state_after (run_steps step bs (i + 1) (state_after (step b i s)))
    end.
Proof.
  rewrite run_steps_cons. unfold bind, state_after, outcome.
  destruct (step b i s) as [s1 [e|x]]; simpl; [reflexivity|].
  destruct (run_steps step bs (i + 1) s1) as [s2 [e|xs]]; reflexivity.
Qed.

Lemma run_steps_outcome {A} (step : Batch -> Z -> M A) b bs i s xs :
  outcome (run_steps step (b :: bs) i s) = inr xs ->
  exists x xs',
    xs = x :: xs' /\ outcome (step b i s) = inr x
    /\ outcome (run_steps step bs (i + 1) (state_after (step b i s)))
       = inr xs'.
Proof.
  rewrite run_steps_cons. unfold bind, state_after, outcome.
  destruct (step b i s) as [s1 [e|x]]; simpl; [discriminate|].
  destruct (run_steps step bs (i + 1) s1) as [s2 [e|xs']]; simpl;
    [discriminate|].
  intros [= <-]. exists x, xs'. auto.
Qed.

Lemma float_lt_int_mono (x : pyfloat) (i j : Z) :
  i <= j -> float_lt_int x i = true -> float_lt_int x j = true.
Proof.
  intros Hij. destruct x as [q| | |]; simpl; auto.
  rewrite !negb_true_iff. intros Hi.
  destruct (Qle_bool (inject_Z j) q) eqn:Hj; [|reflexivity].
  apply Qle_bool_iff in Hj.
  assert (Qle_bool (inject_Z i) q = true); [|congruence].
  apply Qle_bool_iff. eapply Qle_trans; [|exact Hj].
  rewrite <- Zle_Qle. exact Hij.
Qed.

Lemma float_lt_int_finite (w i : Z) :
  float_lt_int (Finite (inject_Z w)) i = true <-> w < i.
Proof.
  simpl. rewrite negb_true_iff. split.
  - intros H. destruct (Z_lt_le_dec w i) as [Hlt|Hle]; [exact Hlt|].
    rewrite Zle_Qle in Hle. apply Qle_bool_iff in Hle. congruence.
  - intros H. destruct (Qle_bool (inject_Z i) (inject_Z w)) eqn:E;
      [|reflexivity].
    apply Qle_bool_iff in E. rewrite <- Zle_Qle in E. lia.
Qed.

(** X3: the counter counts the completed training steps: a run of
    training steps never decreases [iter] nor moves it by more than the
    number of batches, never touches [args], and a run that returns has
    advanced [iter] by exactly the number of batches and returns one
    loss per batch. *)
Theorem iter_counts_training_steps (batches : list Batch) (idx : Z)
    (s : TrainVQG) :
  let r := run_steps training_step batches idx s in
  args (state_after r) = args s
  /\ iter s <= iter (state_after r) <= iter s + Z.of_nat (length batches)
  /\ forall xs, outcome r = inr xs ->
       iter (state_after r) = iter s + Z.of_nat (length batches)
       /\ length xs = length batches.
Proof.
  revert idx s. induction batches as [|b bs IH]; intros idx s.
  - simpl. unfold state_after, outcome, ret. simpl.
    split; [reflexivity|]. split; [lia|]. intros xs [= <-]. split; [lia|auto].
  - cbv zeta. rewrite run_steps_state.
    pose proof (training_step_fields b idx s) as (Fa & _ & _ & _ & Fi).
    destruct (IH (idx + 1) (state_after (training_step b idx s)))
      as (Ia & Ii & Io).
    split; [|split].
    + destruct (outcome (training_step b idx s)); congruence.
    + destruct (outcome (training_step b idx s)); simpl length; lia.
    + intros xs Hxs. apply run_steps_outcome in Hxs
        as (x & xs' & -> & Hx & Hxs').
      rewrite Hx in *. destruct (Io xs' Hxs') as [Hi Hl].
      simpl length. split; [lia|congruence].
Qed.

(** The flags and the optimizer count after a run that stays within the
    warm-up. *)
Lemma run_within_warmup (batches : list Batch) (idx : Z) (s : TrainVQG) :
  (forall i, iter s <= i < iter s + Z.of_nat (length batches) ->
             float_lt_int (num_warmup_steps (args s)) i = false) ->
  let s' := state_after (run_steps training_step batches idx s) in
  latent_transformer s' = latent_transformer s
  /\ model_latent_transformer s' = model_latent_transformer s
  /\ optimizers_built s' = optimizers_built s.
Proof.
  revert idx s. induction batches as [|b bs IH]; intros idx s Hw.
  - simpl. auto.
  - cbv zeta. rewrite run_steps_state.
    pose proof (training_step_fields b idx s) as (Fa & Fl & Fm & Fb & Fi).
    cbv zeta in *.
    rewrite (Hw (iter s)) in * by (simpl length; lia). simpl in *.
    destruct (outcome (training_step b idx s)) as [e|x].
    + split; [exact Fl|]. split; [exact Fm|lia].
    + destruct (IH (idx + 1) (state_after (training_step b idx s)))
        as (Il & Im & Ib).
      { intros i Hi. rewrite Fa. apply Hw. simpl length. lia. }
      split; [congruence|]. split; [congruence|lia].
Qed.

(** X4: a fresh object stays in plain mode, and builds no optimizer, over
    any run of training steps whose number does not exceed
    [num_warmup_steps + 1]; so with [num_warmup_steps >=
    total_training_steps - 1] (the defaults are 35000 and 35000) a fit
    of [total_training_steps] steps never turns the latent path on. *)
Theorem plain_within_warmup (a : Args) (q : Q) (batches : list Batch)
    (idx : Z) :
  num_warmup_steps a = Finite q ->
  (inject_Z (Z.of_nat (length batches) - 1) <= q)%Q ->
  let s' := state_after (run_steps training_step batches idx (init a)) in
  latent_transformer s' = false
  /\ model_latent_transformer s' = false
  /\ optimizers_built s' = 0%nat.
Proof.
  intros Hq Hle.
  apply (run_within_warmup batches idx (init a)).
  intros i Hi. simpl in *. rewrite Hq. simpl. rewrite negb_false_iff.
  apply Qle_bool_iff. eapply Qle_trans; [|exact Hle].
  rewrite <- Zle_Qle. lia.
Qed.

(** The flag after a run whose steps can only fail at the switch. *)
Lemma run_training_latent (batches : list Batch) (idx : Z) (s : TrainVQG) :
  total_training_steps (args s) <> 0 ->
  Z.abs (total_training_steps (args s)) < 2 ^ 53 ->
  0 <= iter s ->
  iter s + Z.of_nat (length batches) < 2 ^ 53 ->
  let s' := state_after (run_steps training_step batches idx s) in
  let switch :=
    existsb (float_lt_int (num_warmup_steps (args s)))
            (seqZ (iter s) (Z.of_nat (length batches))) in
  latent_transformer s' = latent_transformer s || switch
  /\ model_latent_transformer s' = model_latent_transformer s || switch.
Proof.
  revert idx s. induction batches as [|b bs IH]; intros idx s N HT H0 Hn.
  - simpl. rewrite !orb_false_r. auto.
  - cbv zeta. rewrite run_steps_state.
    assert (Z.abs (iter s) < 2 ^ 53) as Hi by (simpl length in Hn; lia).
    pose proof (training_step_fields b idx s) as (Fa & Fl & Fm & _ & Fi).
    cbv zeta in *.
    replace (Z.of_nat (length (b :: bs))) with (Z.succ (Z.of_nat (length bs)))
      by (simpl length; lia).
    rewrite (seqZ_cons (iter s)) by lia. rewrite Z.pred_succ. simpl existsb.
    replace (Z.succ (iter s)) with (iter s + 1) by lia.
    destruct (outcome (training_step b idx s)) as [e|x] eqn:Hx.
    + apply training_step_raises in Hx; [|assumption..].
      destruct Hx as [Hx|(_ & _ & _ & Hx)]; [|contradiction].
      apply switch_error_Some in Hx. destruct Hx as (_ & Hlt & _).
      rewrite Fl, Fm, Hlt. simpl. rewrite !orb_true_r. auto.
    + destruct (IH (idx + 1) (state_after (training_step b idx s)))
        as (Il & Im);
        [rewrite ?Fa, ?Fi; try assumption; simpl length in Hn; lia..|].
      rewrite Il, Im, Fa, Fl, Fm, Fi.
      split.
      * destruct (float_lt_int _ (iter s)), (latent_transformer s);
          reflexivity.
      * destruct (float_lt_int _ (iter s)), (model_latent_transformer s);
          reflexivity.
Qed.

(** X5: with an integral [num_warmup_steps = w >= 0], a nonzero total
    that binary64 holds exactly and fewer than [2^53] steps, a fresh
    object is in latent mode after a run of [n] training steps exactly
    when [n > w + 1]: the step taken at iteration [i] switches when
    [w < i], so the [w + 1] steps at iterations [0..w] run in plain mode
    and the step at iteration [w + 1] is the first latent one. *)
Theorem latent_after_warmup_plus_one (a : Args) (w : Z)
    (batches : list Batch) (idx : Z) :
  num_warmup_steps a = Finite (inject_Z w) ->
  0 <= w ->
  total_training_steps a <> 0 ->
  Z.abs (total_training_steps a) < 2 ^ 53 ->
  Z.of_nat (length batches) < 2 ^ 53 ->
  let s' := state_after (run_steps training_step batches idx (init a)) in
  (latent_transformer s' = true <-> w + 1 < Z.of_nat (length batches))
  /\ model_latent_transformer s' = latent_transformer s'.
Proof.
  intros Hw Hw0 N HT Hn.
  destruct (run_training_latent batches idx (init a) N HT) as (Hl & Hm);
    [simpl; lia..|].
  cbv zeta in *. simpl in Hl, Hm. rewrite Hl, Hm. split; [|reflexivity].
  rewrite Hw, existsb_exists. split.
  - intros (i & Hi & Hlt). apply float_lt_int_finite in Hlt.
    apply list_elem_of_In, elem_of_seqZ in Hi. lia.
  - intros Hn'. exists (w + 1). split.
    + apply list_elem_of_In, elem_of_seqZ. lia.
    + apply float_lt_int_finite. lia.
Qed.

End Runs.

(** Decompose a method body into its state-changing steps. *)
Ltac preserve :=
  repeat
    lazymatch goal with
    | |- preserves _ (bind _ _) => apply preserves_bind; [|intros ?]
    | |- preserves _ (for_each _ _) => apply preserves_for_each; intros ?
    | |- preserves _ (modify _) => apply preserves_modify
    | |- preserves _ (ret _) => apply preserves_ret
    | |- preserves _ (raise _) => apply preserves_raise
    | |- preserves _ (lift _) => apply preserves_lift
    | |- preserves _ get => apply preserves_get
    | |- preserves _ (match ?x with _ => _ end) => destruct x
    end.

Section Frames.

Context {DT : DataTypes} {W : Collaborators}.

Lemma state_after_then_ret {A B} (m : M A) (b : B) s :
  state_after (bind m (fun _ => ret b) s) = state_after (m s).
Proof.
  unfold bind, state_after, ret. destruct (m s) as [s1 [e|x]]; reflexivity.
Qed.

(** What each method leaves alone: a projection [f] of the state that
    the setters a method uses do not change is unchanged by the method. *)
Lemma training_step_frame {A} (f : TrainVQG -> A) b i s :
  (forall v x, f (set_latent_transformer v x) = f x) ->
  (forall v x, f (set_model_latent_transformer v x) = f x) ->
  (forall e x, f (emit e x) = f x) ->
  (forall v x, f (set_iter v x) = f x) ->
  f (state_after (training_step b i s)) = f s.
Proof.
  intros H1 H2 H3 H4.
  enough (preserves (fun x => f x = f s) (training_step b i)) as Hp
    by (apply (Hp s eq_refl)).
  unfold training_step, configure_optimizers, log. preserve;
    try apply calculate_losses_preserves;
    intros ? Hx; rewrite ?H1, ?H2, ?H3, ?H4; exact Hx.
Qed.

Lemma validation_step_frame {A} (f : TrainVQG -> A) b i s :
  (forall e x, f (emit e x) = f x) ->
  (forall m x, f (set_val_losses m x) = f x) ->
  f (state_after (validation_step b i s)) = f s.
Proof.
  intros H1 H2.
  enough (preserves (fun x => f x = f s) (validation_step b i)) as Hp
    by (apply (Hp s eq_refl)).
  unfold validation_step, val_losses_append, log. preserve;
    try apply calculate_losses_preserves;
    intros ? Hx; rewrite ?H1, ?H2; exact Hx.
Qed.

Lemma decode_and_print_frame {A} (f : TrainVQG -> A) b lim val s :
  (forall l x, f (set_bleus l x) = f x) ->
  (forall l x, f (set_msjs l x) = f x) ->
  (forall l x, f (set_fbds l x) = f x) ->
  f (state_after (decode_and_print b lim val s)) = f s.
Proof.
  intros H1 H2 H3.
  apply (decode_and_print_preserves (fun x => f x = f s));
    [intros l y Hy; rewrite H1; exact Hy
    |intros l y Hy; rewrite H2; exact Hy
    |intros l y Hy; rewrite H3; exact Hy
    |reflexivity].
Qed.

Lemma validation_epoch_end_frame {A} (f : TrainVQG -> A) bs s :
  (forall l x, f (set_bleus l x) = f x) ->
  (forall l x, f (set_msjs l x) = f x) ->
  (forall l x, f (set_fbds l x) = f x) ->
  (forall e x, f (emit e x) = f x) ->
  (forall m x, f (set_val_losses m x) = f x) ->
  f (state_after (validation_epoch_end bs s)) = f s.
Proof.
  intros H1 H2 H3 H4 H5.
  enough (preserves (fun x => f x = f s) (validation_epoch_end bs)) as Hp
    by (apply (Hp s eq_refl)).
  unfold validation_epoch_end, log. preserve;
    try (apply decode_and_print_preserves; intros ? ? Hx;
         rewrite ?H1, ?H2, ?H3; exact Hx);
    intros ? Hx; rewrite ?H4, ?H5; exact Hx.
Qed.

(** In test mode [decode_and_print] changes nothing. *)
Lemma decode_and_print_test_mode b lim s :
  state_after (decode_and_print b lim false s) = s.
Proof.
  rewrite decode_and_print_eq.
  destruct (decode_examples _ _ _ _ _ _ _ _) as [e|[gts preds]];
    [reflexivity|].
  cbv zeta. unfold recorded.
  destruct (py_max (bleus s)); [reflexivity|].
  destruct (py_max (msjs s)); reflexivity.
Qed.

Lemma test_step_frame {A} (f : TrainVQG -> A) b i s :
  (forall m x, f (set_test_scores m x) = f x) ->
  f (state_after (test_step b i s)) = f s.
Proof.
  intros H1. unfold test_step.
  pose proof (decode_and_print_test_mode b print_lim_default s) as E.
  unfold bind at 1. unfold state_after in *.
  destruct (decode_and_print b print_lim_default false s) as [s1 [e|sc]];
    simpl in E; subst s1; [reflexivity|].
  change (f (state_after
               (bind (for_each sc accumulate_score) (fun _ => ret sc) s))
          = f s).
  rewrite state_after_then_ret.
  enough (preserves (fun x => f x = f s) (for_each sc accumulate_score)) as Hp
    by (apply (Hp s eq_refl)).
  unfold accumulate_score. preserve; intros ? Hx; rewrite H1; exact Hx.
Qed.

(** X6: a test step touches nothing but the test-score accumulator: the
    counter, the mode flags, the arguments, the validation accumulators,
    the three score histories and the log are as before, whether the step
    returns or raises; and when its evaluation raises, the accumulator is
    untouched too. *)
Theorem test_step_only_accumulates (b : Batch) (i : Z) (s : TrainVQG) :
  let s' := state_after (test_step b i s) in
  args s' = args s /\ iter s' = iter s
  /\ latent_transformer s' = latent_transformer s
  /\ model_latent_transformer s' = model_latent_transformer s
  /\ val_losses s' = val_losses s
  /\ bleus s' = bleus s /\ msjs s' = msjs s /\ fbds s' = fbds s
  /\ trace s' = trace s
  /\ (forall e, outcome (test_step b i s) = inl e -> s' = s).
Proof.
  cbv zeta.
  repeat (split; [apply test_step_frame; reflexivity|]).
  intros e. unfold test_step, bind.
  pose proof (decode_and_print_test_mode b print_lim_default s) as E.
  unfold state_after, outcome in *.
  destruct (decode_and_print b print_lim_default false s) as [s1 [e1|sc]];
    simpl in E; subst s1; [reflexivity|].
  pose proof (for_each_total sc accumulate_score s accumulate_score_total)
    as Ht. unfold outcome in Ht.
  destruct (for_each sc accumulate_score s) as [s2 [e2|[]]]; simpl in *;
    discriminate.
Qed.

(** X7: a validation step touches nothing but the validation
    accumulators and the log: it does not advance the counter, switch the
    mode, or record a score. *)
Theorem validation_step_only_accumulates (b : Batch) (i : Z)
    (s : TrainVQG) :
  let s' := state_after (validation_step b i s) in
  args s' = args s /\ iter s' = iter s
  /\ latent_transformer s' = latent_transformer s
  /\ model_latent_transformer s' = model_latent_transformer s
  /\ test_scores s' = test_scores s
  /\ bleus s' = bleus s /\ msjs s' = msjs s /\ fbds s' = fbds s
  /\ optimizers_built s' = optimizers_built s.
Proof.
  cbv zeta.
  repeat (split; [apply validation_step_frame; reflexivity|]).
  enough (preserves (fun x => optimizers_built x = optimizers_built s)
            (validation_step b i)) as Hp by (apply (Hp s eq_refl)).
  unfold validation_step, val_losses_append, log. preserve;
    try apply calculate_losses_preserves;
    intros ? Hx; rewrite ?optimizers_built_emit; simpl; rewrite <- Hx;
    try lia; reflexivity.
Qed.

End Frames.

Section Validation.

Context {DT : DataTypes} {W : Collaborators}.

Lemma val_losses_append_ok k x l s :
  val_losses s !! k = Some l ->
  val_losses_append k x s
  = (set_val_losses (<[k := l ++ [x]]> (val_losses s)) s, inr tt).
Proof.
  intros E. unfold val_losses_append, bind, get, modify. simpl.
  rewrite E. reflexivity.
Qed.

(** A validation step whose loss computation returns, on an object that
    has its three accumulators. *)
Lemma validation_step_ok (b : Batch) (i : Z) (s : TrainVQG) l1 l2 l3 t r k :
  val_losses s !! "total loss" = Some l1 ->
  val_losses s !! "rec loss" = Some l2 ->
  val_losses s !! "kl loss" = Some l3 ->
  outcome (calculate_losses
             (VQGModel_forward (model_latent_transformer s) b).1
             (VQGModel_forward (model_latent_transformer s) b).2
             r_default s) = inr (t, r, k) ->
  validation_step b i s
  = (set_val_losses
       (<["kl loss" := l3 ++ [k]]>
          (<["rec loss" := l2 ++ [r]]>
             (<["total loss" := l1 ++ [t]]> (val_losses s))))
       (emit (Log "kl val loss" k)
          (emit (Log "rec val loss" r)
             (emit (Log "total val loss" t) s))),
     inr b).
Proof.
  intros H1 H2 H3 Hc. unfold validation_step.
  unfold bind at 1. unfold get at 1.
  destruct (VQGModel_forward (model_latent_transformer s) b) as [loss kld].
  simpl in Hc. unfold bind at 1. rewrite calculate_losses_pure, Hc.
  unfold log. unfold bind at 1, modify at 1.
  unfold bind at 1, modify at 1. unfold bind at 1, modify at 1.
  unfold bind at 1. erewrite val_losses_append_ok by (simpl; exact H1).
  unfold bind at 1. erewrite val_losses_append_ok
    by (simpl; rewrite lookup_insert_ne by discriminate; exact H2).
  unfold bind at 1. erewrite val_losses_append_ok
    by (simpl; rewrite !lookup_insert_ne by discriminate; exact H3).
  reflexivity.
Qed.

Lemma validation_step_fails (b : Batch) (i : Z) (s : TrainVQG) e :
  outcome (calculate_losses
             (VQGModel_forward (model_latent_transformer s) b).1
             (VQGModel_forward (model_latent_transformer s) b).2
             r_default s) = inl e ->
  validation_step b i s = (s, inl e).
Proof.
  intros Hc. unfold validation_step.
  unfold bind at 1. unfold get at 1.
  destruct (VQGModel_forward (model_latent_transformer s) b) as [loss kld].
  simpl in Hc. unfold bind at 1. rewrite calculate_losses_pure, Hc.
  reflexivity.
Qed.

(** X8: on an object reachable from a fresh one, a validation step never
    raises [KeyError]: when it raises, the model returned a KL term, the
    exception is the [ZeroDivisionError] or the [OverflowError] of the
    loss schedule, and the object is left as it was.  With a total and a
    counter that binary64 holds exactly, it raises exactly when
    [total_training_steps] is 0 and the model returns a KL term, and then
    [ZeroDivisionError]; otherwise it returns the batch it was given. *)
Theorem validation_step_raises (b : Batch) (i : Z) (s : TrainVQG) :
  reachable s ->
  let kld := (VQGModel_forward (model_latent_transformer s) b).2 in
  (forall e, outcome (validation_step b i s) = inl e ->
     (e = ZeroDivisionError \/ e = OverflowError)
     /\ kld <> None
     /\ state_after (validation_step b i s) = s)
  /\ (Z.abs (total_training_steps (args s)) < 2 ^ 53 ->
      Z.abs (iter s) < 2 ^ 53 ->
      (kld <> None /\ total_training_steps (args s) = 0 ->
       validation_step b i s = (s, inl ZeroDivisionError))
      /\ (kld = None \/ total_training_steps (args s) <> 0 ->
          outcome (validation_step b i s) = inr b)).
Proof.
  intros Hr kld.
  destruct (reachable_val_keys s Hr) as ([l1 H1] & [l2 H2] & [l3 H3]).
  destruct (outcome (calculate_losses
             (VQGModel_forward (model_latent_transformer s) b).1
             (VQGModel_forward (model_latent_transformer s) b).2
             r_default s)) as [e|[[t r] k]] eqn:Hc.
  - split.
    + intros e'. rewrite (validation_step_fails b i s e Hc).
      unfold outcome, state_after. cbn [fst snd]. intros [= <-].
      fold kld in Hc. destruct kld as [k|]; [|discriminate].
      rewrite calculate_losses_eq in Hc. unfold outcome in Hc. cbn [snd] in Hc.
      destruct (phase _ _) as [e'|t] eqn:Hp; [|discriminate].
      injection Hc as <-. split; [eapply phase_errors, Hp|]. split; auto.
    + intros HT Hi.
      pose proof Hc as Hc'. apply calculate_losses_raises in Hc'
        as (-> & Hk & HT0); [|assumption..]. split.
      * intros _. apply validation_step_fails. exact Hc.
      * intros [Hn|Hn]; contradiction.
  - assert (outcome (validation_step b i s) = inr b) as Hok.
    { rewrite (validation_step_ok b i s l1 l2 l3 t r k) by auto.
      reflexivity. }
    split.
    + intros e. rewrite Hok. discriminate.
    + intros HT Hi. split; [|intros _; exact Hok].
      intros [Hk HT0].
      assert (outcome (calculate_losses
                (VQGModel_forward (model_latent_transformer s) b).1
                (VQGModel_forward (model_latent_transformer s) b).2
                r_default s) = inl ZeroDivisionError) as Hz
        by (apply calculate_losses_raises; auto).
      congruence.
Qed.

(** X9: a validation step that returns appends the total, the
    reconstruction and the KL loss of its batch to the end of the
    accumulator of that name, one value each, changes no other entry of
    [val_losses], and logs the three values in that order. *)
Theorem validation_step_appends (b : Batch) (i : Z) (s : TrainVQG)
    (l1 l2 l3 : list R) (t r k : R) :
  val_losses s !! "total loss" = Some l1 ->
  val_losses s !! "rec loss" = Some l2 ->
  val_losses s !! "kl loss" = Some l3 ->
  outcome (calculate_losses
             (VQGModel_forward (model_latent_transformer s) b).1
             (VQGModel_forward (model_latent_transformer s) b).2
             r_default s) = inr (t, r, k) ->
  let s' := state_after (validation_step b i s) in
  val_losses s' !! "total loss" = Some (l1 ++ [t])
  /\ val_losses s' !! "rec loss" = Some (l2 ++ [r])
  /\ val_losses s' !! "kl loss" = Some (l3 ++ [k])
  /\ (forall key, key <> "total loss" -> key <> "rec loss" ->
        key <> "kl loss" -> val_losses s' !! key = val_losses s !! key)
  /\ trace s'
     = trace s ++ [Log "total val loss" t; Log "rec val loss" r;
                   Log "kl val loss" k].
Proof.
  intros H1 H2 H3 Hc. cbv zeta.
  rewrite (validation_step_ok b i s l1 l2 l3 t r k) by auto.
  unfold state_after. simpl.
  split; [rewrite !lookup_insert_ne by discriminate; apply lookup_insert_eq|].
  split; [rewrite lookup_insert_ne by discriminate; apply lookup_insert_eq|].
  split; [apply lookup_insert_eq|].
  split.
  - intros key N1 N2 N3. rewrite !lookup_insert_ne by congruence. reflexivity.
  - rewrite <- !app_assoc. reflexivity.
Qed.

End Validation.

Section Epochs.

Context {DT : DataTypes} {W : Collaborators}.

Lemma val_count_step (b : Batch) (i : Z) (s : TrainVQG) x :
  val_keys_present s ->
  outcome (validation_step b i s) = inr x ->
  x = b
  /\ val_keys_present (state_after (validation_step b i s))
  /\ forall key,
       key = "total loss" \/ key = "rec loss" \/ key = "kl loss" ->
       val_count key (state_after (validation_step b i s))
       = S (val_count key s).
Proof.
  intros ([l1 H1] & [l2 H2] & [l3 H3]).
  destruct (outcome (calculate_losses
             (VQGModel_forward (model_latent_transformer s) b).1
             (VQGModel_forward (model_latent_transformer s) b).2
             r_default s)) as [e|[[t r] k]] eqn:Hc.
  - rewrite (validation_step_fails b i s e Hc). discriminate.
  - rewrite (validation_step_ok b i s l1 l2 l3 t r k) by auto.
    unfold outcome, state_after. simpl. intros [= <-].
    split; [reflexivity|]. split.
    + unfold val_keys_present. simpl.
      repeat split; repeat apply insert_keeps_key; eauto.
    + intros key [-> | [-> | ->]]; unfold val_count; simpl.
      * rewrite !lookup_insert_ne by discriminate.
        rewrite lookup_insert_eq, H1, length_app. simpl. lia.
      * rewrite lookup_insert_ne by discriminate.
        rewrite lookup_insert_eq, H2, length_app. simpl. lia.
      * rewrite lookup_insert_eq, H3, length_app. simpl. lia.
Qed.

(** X10: a run of validation steps that returns hands back the batches
    it was given, unchanged and in order, and has put exactly one value
    per batch into each of the three accumulators. *)
Theorem validation_run_counts (bs : list Batch) (idx : Z) (s : TrainVQG)
    (outs : list Batch) :
  val_keys_present s ->
  outcome (run_steps validation_step bs idx s) = inr outs ->
  outs = bs
  /\ forall key,
       key = "total loss" \/ key = "rec loss" \/ key = "kl loss" ->
       val_count key (state_after (run_steps validation_step bs idx s))
       = (val_count key s + length bs)%nat.
Proof.
  revert idx s outs. induction bs as [|b bs IH]; intros idx s outs Hk Ho.
  - simpl in *. unfold outcome, ret in Ho. simpl in Ho.
    injection Ho as <-. split; [reflexivity|]. intros key _.
    unfold state_after, ret. simpl. lia.
  - apply run_steps_outcome in Ho as (x & xs & -> & Hx & Hxs).
    destruct (val_count_step b idx s x Hk Hx) as (-> & Hk' & Hc).
    destruct (IH _ _ _ Hk' Hxs) as (-> & Hn).
    split; [reflexivity|]. intros key Hkey.
    rewrite run_steps_state, Hx, (Hn key Hkey), (Hc key Hkey).
    simpl length. lia.
Qed.

Lemma for_each_log_state {A} (l : list A) (name : A -> string)
    (value : A -> R) s :
  for_each l (fun x => log (name x) (value x)) s
  = (foldl (fun s x => emit (Log (name x) (value x)) s) s l, inr tt).
Proof.
  revert s. induction l as [|x l IH]; intros s; [reflexivity|].
  simpl. unfold bind at 1. unfold log at 1, modify at 1. apply IH.
Qed.

Lemma foldl_emit_trace {A} (l : list A) (ev : A -> event) s :
  trace (foldl (fun s x => emit (ev x) s) s l) = trace s ++ map ev l.
Proof.
  revert s. induction l as [|x l IH]; intros s; simpl.
  - rewrite app_nil_r. reflexivity.
  - rewrite IH. simpl. rewrite <- app_assoc. reflexivity.
Qed.

Lemma foldl_emit_frame {A B} (f : TrainVQG -> B) (l : list A)
    (ev : A -> event) s :
  (forall e x, f (emit e x) = f x) ->
  f (foldl (fun s x => emit (ev x) s) s l) = f s.
Proof.
  intros Hf. revert s. induction l as [|x l IH]; intros s; simpl;
    [reflexivity|]. rewrite IH. apply Hf.
Qed.

(** [validation_epoch_end] in one equation. *)
Lemma validation_epoch_end_eq (bs : list Batch) (s : TrainVQG) :
  validation_epoch_end bs s
  = match bs with
    | [] => (s, inl IndexError)
    | b :: _ =>
        match decode_and_print b print_lim_default true s with
        | (s1, inl e) => (s1, inl e)
        | (s1, inr scores) =>
            let s2 := foldl (fun s kv =>
                               emit (Log ("val_" +:+ kv.1) (rounded kv.2)) s)
                            s1 scores in
            (set_val_losses ((fun _ => []) <$> val_losses s2) s2, inr tt)
        end
    end.
Proof.
  unfold validation_epoch_end. destruct bs as [|b bs]; [reflexivity|].
  unfold bind at 1. unfold lift at 1.
  change (py_getitem (b :: bs) 0) with (@inr exn Batch b). cbv iota beta.
  unfold bind at 1.
  destruct (decode_and_print b print_lim_default true s) as [s1 [e|scores]];
    [reflexivity|].
  unfold bind at 1.
  rewrite (for_each_log_state scores (fun kv => "val_" +:+ kv.1)
             (fun kv => rounded kv.2)).
  reflexivity.
Qed.

(** X11: [validation_epoch_end] evaluates the first collected batch only.
    With no batch it raises [IndexError] and changes nothing.  When the
    evaluation of the first batch raises ([IndexError] or [ValueError]),
    the error is passed on before anything is logged and before the
    accumulators are cleared: they keep their values. *)
Theorem validation_epoch_end_failure (bs : list Batch) (s : TrainVQG) :
  validation_epoch_end [] s = (s, inl IndexError)
  /\ (forall b rest, validation_epoch_end (b :: rest) s
                     = validation_epoch_end [b] s)
  /\ forall e,
       outcome (validation_epoch_end bs s) = inl e ->
       (e = IndexError \/ e = ValueError)
       /\ val_losses (state_after (validation_epoch_end bs s)) = val_losses s
       /\ trace (state_after (validation_epoch_end bs s)) = trace s.
Proof.
  split; [reflexivity|]. split.
  { intros b rest. rewrite !validation_epoch_end_eq. reflexivity. }
  intros e. rewrite validation_epoch_end_eq.
  destruct bs as [|b rest].
  - unfold outcome, state_after. simpl. intros [= <-]. auto.
  - pose proof (decode_and_print_frame val_losses b print_lim_default true s
                  (fun _ _ => eq_refl) (fun _ _ => eq_refl)
                  (fun _ _ => eq_refl)) as Fv.
    pose proof (decode_and_print_frame trace b print_lim_default true s
                  (fun _ _ => eq_refl) (fun _ _ => eq_refl)
                  (fun _ _ => eq_refl)) as Ft.
    pose proof (decode_and_print_eq b print_lim_default true s) as Eq.
    destruct (decode_and_print b print_lim_default true s)
      as [s1 [e1|scores]]; unfold outcome, state_after in *; simpl in *;
      [|discriminate].
    intros [= <-]. split; [|auto].
    destruct (decode_examples _ _ _ _ _ _ _ _) as [e0|[gts preds]] eqn:El.
    + injection Eq as _ <-. left. eapply decode_examples_error, El.
    + cbv zeta in Eq.
      destruct (py_max (bleus _)) as [eb|] eqn:Eb.
      * injection Eq as _ <-. right.
        destruct (bleus _); [injection Eb as <-; reflexivity|discriminate].
      * destruct (py_max (msjs _)) as [em|] eqn:Em; [|discriminate].
        injection Eq as _ <-. right.
        destruct (msjs _); [injection Em as <-; reflexivity|discriminate].
Qed.

(** X12: a validation epoch end that returns has logged one entry
    [val_<metric>] per score of the first batch, in the order of the
    score mapping and after everything logged before, each with the
    score scaled by 100 and rounded; it has not moved the counter nor
    the mode flags nor the test accumulator. *)
Theorem validation_epoch_end_logs (b : Batch) (rest : list Batch)
    (s s' : TrainVQG) :
  validation_epoch_end (b :: rest) s = (s', inr tt) ->
  exists scores,
    outcome (decode_and_print b print_lim_default true s) = inr scores
    /\ trace s'
       = trace s
         ++ map (fun kv => Log ("val_" +:+ kv.1) (rounded kv.2)) scores
    /\ iter s' = iter s
    /\ latent_transformer s' = latent_transformer s
    /\ model_latent_transformer s' = model_latent_transformer s
    /\ test_scores s' = test_scores s.
Proof.
  intros E.
  pose proof (validation_epoch_end_frame iter (b :: rest) s
                (fun _ _ => eq_refl) (fun _ _ => eq_refl)
                (fun _ _ => eq_refl) (fun _ _ => eq_refl)
                (fun _ _ => eq_refl)) as Fi.
  pose proof (validation_epoch_end_frame latent_transformer (b :: rest) s
                (fun _ _ => eq_refl) (fun _ _ => eq_refl)
                (fun _ _ => eq_refl) (fun _ _ => eq_refl)
                (fun _ _ => eq_refl)) as Fl.
  pose proof (validation_epoch_end_frame model_latent_transformer
                (b :: rest) s
                (fun _ _ => eq_refl) (fun _ _ => eq_refl)
                (fun _ _ => eq_refl) (fun _ _ => eq_refl)
                (fun _ _ => eq_refl)) as Fm.
  pose proof (validation_epoch_end_frame test_scores (b :: rest) s
                (fun _ _ => eq_refl) (fun _ _ => eq_refl)
                (fun _ _ => eq_refl) (fun _ _ => eq_refl)
                (fun _ _ => eq_refl)) as Ft.
  rewrite E in Fi, Fl, Fm, Ft. unfold state_after in *. simpl in *.
  rewrite validation_epoch_end_eq in E.
  pose proof (decode_and_print_frame trace b print_lim_default true s
                (fun _ _ => eq_refl) (fun _ _ => eq_refl)
                (fun _ _ => eq_refl)) as Ftr.
  destruct (decode_and_print b print_lim_default true s)
    as [s1 [e1|scores]]; [discriminate|].
  unfold state_after in Ftr. simpl in Ftr.
  exists scores. split; [reflexivity|].
  cbv zeta in E. injection E as <-. simpl.
  rewrite (foldl_emit_trace scores
             (fun kv => Log ("val_" +:+ kv.1) (rounded kv.2))), Ftr.
  auto.
Qed.

End Epochs.

Section Histories.

Context {DT : DataTypes} {W : Collaborators}.

Lemma watched_cons key it kv scores :
  watched key it (kv :: scores)
  = (if decide (kv.1 = key) then [(it, rounded kv.2)] else [])
    ++ watched key it scores.
Proof.
  unfold watched. rewrite filter_cons.
  destruct (decide (kv.1 = key)); reflexivity.
Qed.

Lemma watched_nil_iff key it (scores : list (string * R)) :
  watched key it scores = [] <-> key ∉ scores.*1.
Proof.
  induction scores as [|kv scores IH]; [split; [intros _ H|]; [inversion H|auto]|].
  rewrite watched_cons, fmap_cons, not_elem_of_cons.
  destruct (decide (kv.1 = key)) as [E|N]; simpl.
  - split; [discriminate|intros [Hne _]; congruence].
  - rewrite IH. split; [intros H; split; [congruence|exact H]|tauto].
Qed.

(** The histories after the recording loop. *)
Lemma record_scores_state (scores : list (string * R)) :
  forall s,
    let s' := state_after (for_each scores record_score s) in
    bleus s' = bleus s ++ watched "Bleu_4" (iter s) scores
    /\ msjs s' = msjs s ++ watched "msj_4" (iter s) scores
    /\ fbds s' = fbds s ++ watched "fbd" (iter s) scores
    /\ iter s' = iter s.
Proof.
  induction scores as [|kv scores IH]; intros s.
  - simpl. unfold watched. simpl. rewrite !app_nil_r. auto.
  - cbv zeta. rewrite !watched_cons.
    assert (exists s1,
              for_each (kv :: scores) record_score s
              = for_each scores record_score s1
              /\ iter s1 = iter s
              /\ bleus s1 = bleus s
                   ++ (if decide (kv.1 = "Bleu_4")
                       then [(iter s, rounded kv.2)] else [])
              /\ msjs s1 = msjs s
                   ++ (if decide (kv.1 = "msj_4")
                       then [(iter s, rounded kv.2)] else [])
              /\ fbds s1 = fbds s
                   ++ (if decide (kv.1 = "fbd")
                       then [(iter s, rounded kv.2)] else []))
      as (s1 & -> & Hi & Hb & Hm & Hf).
    { simpl for_each. unfold bind at 1. unfold record_score at 1.
      unfold bind at 1, get at 1.
      destruct (decide (kv.1 = "Bleu_4")) as [E|N1].
      - eexists. split; [reflexivity|]. simpl. rewrite E. simpl.
        rewrite !app_nil_r. auto.
      - destruct (decide (kv.1 = "msj_4")) as [E|N2].
        + eexists. split; [reflexivity|]. simpl. rewrite E. simpl.
          rewrite !app_nil_r. auto.
        + destruct (decide (kv.1 = "fbd")) as [E|N3].
          * eexists. split; [reflexivity|]. simpl. rewrite !app_nil_r. auto.
          * eexists. split; [reflexivity|]. simpl. rewrite !app_nil_r. auto. }
    destruct (IH s1) as (Ib & Im & If & Ii).
    rewrite Ib, Im, If, Ii, Hb, Hm, Hf, Hi, <- !app_assoc. auto.
Qed.

Lemma recorded_state (val : bool) (scores : list (string * R)) s :
  let s' := recorded val scores s in
  bleus s' = bleus s ++ (if val then watched "Bleu_4" (iter s) scores else [])
  /\ msjs s' = msjs s ++ (if val then watched "msj_4" (iter s) scores else [])
  /\ fbds s' = fbds s ++ (if val then watched "fbd" (iter s) scores else [])
  /\ iter s' = iter s.
Proof.
  unfold recorded. destruct val.
  - apply record_scores_state.
  - simpl. rewrite !app_nil_r. auto.
Qed.

(** The state [decode_and_print] leaves when its loop raised nothing. *)
Lemma decode_and_print_state (b : Batch) lim val s gts preds :
  decode_examples lim b (decoded_inputs b) (decoded_questions b) 0
    (decode_greedy (model_latent_transformer s) b) [] [] = inr (gts, preds) ->
  state_after (decode_and_print b lim val s)
  = recorded val (all_scores gts preds) s.
Proof.
  intros E. rewrite decode_and_print_eq, E. cbv zeta.
  destruct (py_max (bleus _)); [reflexivity|].
  destruct (py_max (msjs _)); reflexivity.
Qed.

(** X13: in validation mode, an evaluation whose decoding loop raised
    nothing appends to the [Bleu_4], [msj_4] and [fbd] histories the pair
    (current iteration, score scaled by 100 and rounded) of the metric of
    that name, if the score mapping has it, and nothing else; this holds
    also when the look-up of the best score raises afterwards.  In test
    mode the histories are not touched. *)
Theorem validation_records_watched_scores (b : Batch) (lim : Z)
    (s : TrainVQG) (gts preds : list string) :
  decode_examples lim b (decoded_inputs b) (decoded_questions b) 0
    (decode_greedy (model_latent_transformer s) b) [] [] = inr (gts, preds) ->
  let scores := all_scores gts preds in
  let s' := state_after (decode_and_print b lim true s) in
  let st := state_after (decode_and_print b lim false s) in
  bleus s' = bleus s ++ watched "Bleu_4" (iter s) scores
  /\ msjs s' = msjs s ++ watched "msj_4" (iter s) scores
  /\ fbds s' = fbds s ++ watched "fbd" (iter s) scores
  /\ bleus st = bleus s /\ msjs st = msjs s /\ fbds st = fbds s.
Proof.
  intros E. cbv zeta.
  rewrite !(decode_and_print_state b lim _ s gts preds E).
  destruct (recorded_state true (all_scores gts preds) s) as (Hb & Hm & Hf & _).
  rewrite Hb, Hm, Hf. repeat split; reflexivity.
Qed.

(** X14: a validation-mode evaluation whose decoding loop raised nothing
    returns the scores exactly when, for [Bleu_4] and for [msj_4] alike,
    the history already holds an observation or the score mapping has
    the metric; otherwise it raises [ValueError].  On a fresh object it
    returns exactly when the score mapping has both metrics. *)
Theorem validation_pass_returns_iff (b : Batch) (lim : Z) (s : TrainVQG)
    (gts preds : list string) :
  decode_examples lim b (decoded_inputs b) (decoded_questions b) 0
    (decode_greedy (model_latent_transformer s) b) [] [] = inr (gts, preds) ->
  let scores := all_scores gts preds in
  let served :=
    (bleus s <> [] \/ "Bleu_4" ∈ scores.*1)
    /\ (msjs s <> [] \/ "msj_4" ∈ scores.*1) in
  (served -> outcome (decode_and_print b lim true s) = inr scores)
  /\ (~ served -> outcome (decode_and_print b lim true s) = inl ValueError).
Proof.
  intros E scores served.
  destruct (recorded_state true scores s) as (Hb & Hm & _ & _).
  assert (bleus (recorded true scores s) <> []
          <-> bleus s <> [] \/ "Bleu_4" ∈ scores.*1) as Eb.
  { rewrite Hb. pose proof (watched_nil_iff "Bleu_4" (iter s) scores) as Hw.
    destruct (bleus s) as [|x l]; simpl.
    - split; [intros H; right|intros [H|H]; [congruence|]].
      + destruct (decide ("Bleu_4" ∈ scores.*1)); [assumption|].
        exfalso. apply H, Hw. assumption.
      + intros H0. apply Hw in H0. contradiction.
    - split; [intros _; left|]; discriminate. }
  assert (msjs (recorded true scores s) <> []
          <-> msjs s <> [] \/ "msj_4" ∈ scores.*1) as Em.
  { rewrite Hm. pose proof (watched_nil_iff "msj_4" (iter s) scores) as Hw.
    destruct (msjs s) as [|x l]; simpl.
    - split; [intros H; right|intros [H|H]; [congruence|]].
      + destruct (decide ("msj_4" ∈ scores.*1)); [assumption|].
        exfalso. apply H, Hw. assumption.
      + intros H0. apply Hw in H0. contradiction.
    - split; [intros _; left|]; discriminate. }
  rewrite decode_and_print_eq, E. cbv zeta. fold scores.
  unfold served. rewrite <- Eb, <- Em. unfold outcome. split.
  - intros [H1 H2].
    destruct (bleus (recorded true scores s)) eqn:Hx; [congruence|].
    destruct (msjs (recorded true scores s)) eqn:Hy; [congruence|].
    reflexivity.
  - intros Hn.
    destruct (bleus (recorded true scores s)) as [|x l] eqn:Hx;
      [reflexivity|].
    destruct (msjs (recorded true scores s)) as [|y l'] eqn:Hy;
      [reflexivity|].
    exfalso. apply Hn. split; congruence.
Qed.

End Histories.

Section Invariants.

Context {DT : DataTypes} {W : Collaborators}.

Lemma exec_state (c : call) (s : TrainVQG) :
  state_after (exec c s)
  = match c with
    | TrainingStep b i => state_after (training_step b i s)
    | ValidationStep b i => state_after (validation_step b i s)
    | ValidationEpochEnd bs => state_after (validation_epoch_end bs s)
    | TestStep b i => state_after (test_step b i s)
    | ConfigureOptimizers => state_after (configure_optimizers s)
    end.
Proof.
  destruct c; unfold exec; try apply state_after_then_ret; reflexivity.
Qed.

Lemma reachable_exec_all (cs : list call) (s : TrainVQG) :
  reachable s -> reachable (exec_all cs s).
Proof.
  revert s. induction cs as [|c cs IH]; intros s Hs; [exact Hs|].
  simpl. apply IH. apply reachable_call, Hs.
Qed.

(** The calls other than a training step leave the counter, the flags
    and the arguments alone. *)
Lemma other_calls_keep_mode (c : call) (s : TrainVQG) :
  (forall b i, c <> TrainingStep b i) ->
  let s' := state_after (exec c s) in
  args s' = args s /\ iter s' = iter s
  /\ latent_transformer s' = latent_transformer s
  /\ model_latent_transformer s' = model_latent_transformer s.
Proof.
  intros Hc. cbv zeta.
  enough (preserves
            (fun x => args x = args s /\ iter x = iter s
                      /\ latent_transformer x = latent_transformer s
                      /\ model_latent_transformer x
                         = model_latent_transformer s)
            (exec c)) as Hp by (apply (Hp s); auto).
  destruct c as [b i|b i|bs|b i|]; [destruct (Hc b i eq_refl)|..];
    unfold exec, validation_step, validation_epoch_end, test_step,
      val_losses_append, accumulate_score, configure_optimizers, log;
    preserve;
    try apply calculate_losses_preserves;
    try (apply decode_and_print_preserves; intros ? ? Hx; exact Hx);
    intros ? Hx; exact Hx.
Qed.

(** What any evaluation adds to the histories. *)
Lemma decode_and_print_histories (b : Batch) lim val (s : TrainVQG) :
  let s' := state_after (decode_and_print b lim val s) in
  exists eb em ef,
    bleus s' = bleus s ++ eb /\ msjs s' = msjs s ++ em
    /\ fbds s' = fbds s ++ ef
    /\ Forall (fun e => e.1 = iter s) (eb ++ em ++ ef).
Proof.
  cbv zeta. rewrite decode_and_print_eq.
  destruct (decode_examples _ _ _ _ _ _ _ _) as [e|[gts preds]].
  - exists [], [], []. unfold state_after. simpl. rewrite !app_nil_r. auto.
  - cbv zeta.
    destruct (recorded_state val (all_scores gts preds) s)
      as (Hb & Hm & Hf & _).
    eexists _, _, _.
    split; [|split; [|split]].
    + destruct (py_max (bleus _)); [exact Hb|].
      destruct (py_max (msjs _)); exact Hb.
    + destruct (py_max (bleus _)); [exact Hm|].
      destruct (py_max (msjs _)); exact Hm.
    + destruct (py_max (bleus _)); [exact Hf|].
      destruct (py_max (msjs _)); exact Hf.
    + rewrite !Forall_app. unfold watched.
      repeat split; destruct val; try apply Forall_nil_2;
        apply Forall_fmap, Forall_true; reflexivity.
Qed.

Lemma exec_histories (c : call) (s : TrainVQG) :
  let s' := state_after (exec c s) in
  exists eb em ef,
    bleus s' = bleus s ++ eb /\ msjs s' = msjs s ++ em
    /\ fbds s' = fbds s ++ ef
    /\ Forall (fun e => e.1 = iter s) (eb ++ em ++ ef).
Proof.
  cbv zeta. rewrite exec_state. destruct c as [b i|b i|bs|b i|].
  5:{ exists [], [], []. rewrite !app_nil_r, configure_optimizers_eq.
      destruct (torch_optim_Adam _); unfold state_after; simpl; auto. }
  - exists [], [], []. rewrite !app_nil_r.
    repeat split; try apply training_step_frame; auto.
  - exists [], [], []. rewrite !app_nil_r.
    repeat split; try apply validation_step_frame; auto.
  - rewrite validation_epoch_end_eq. destruct bs as [|b rest].
    { exists [], [], []. unfold state_after. simpl. rewrite !app_nil_r. auto. }
    pose proof (decode_and_print_histories b print_lim_default true s) as H.
    cbv zeta in H.
    destruct (decode_and_print b print_lim_default true s)
      as [s1 [e|scores]]; unfold state_after in *; simpl in *; [exact H|].
    rewrite !(foldl_emit_frame _ scores
                (fun kv => Log ("val_" +:+ kv.1) (rounded kv.2)) s1)
      by reflexivity.
    exact H.
  - exists [], [], []. rewrite !app_nil_r.
    repeat split; try apply test_step_frame; auto.
Qed.

Lemma exec_iter_grows (c : call) (s : TrainVQG) :
  iter s <= iter (state_after (exec c s)).
Proof.
  destruct c as [b i|b i|bs|b i|].
  1:{ rewrite exec_state.
      pose proof (training_step_fields b i s) as (_ & _ & _ & _ & Fi).
      rewrite Fi. destruct (outcome (training_step b i s)); lia. }
  all: match goal with
       | |- context [exec ?c ?s0] =>
           destruct (other_calls_keep_mode c s0) as (_ & -> & _);
             [discriminate|lia]
       end.
Qed.

(** X15: the score histories are append-only: whatever calls are made,
    and whether they return or raise, every observation recorded before
    is still there, in place, and the new ones come after it. *)
Theorem histories_append_only (cs : list call) (s : TrainVQG) :
  bleus s `prefix_of` bleus (exec_all cs s)
  /\ msjs s `prefix_of` msjs (exec_all cs s)
  /\ fbds s `prefix_of` fbds (exec_all cs s).
Proof.
  revert s. induction cs as [|c cs IH]; intros s; [simpl; auto|].
  simpl. destruct (IH (state_after (exec c s))) as (Ib & Im & If).
  destruct (exec_histories c s) as (eb & em & ef & Hb & Hm & Hf & _).
  rewrite Hb in Ib. rewrite Hm in Im. rewrite Hf in If.
  repeat split; (etrans; [apply prefix_app_r; reflexivity|eassumption]).
Qed.

(** X16: in every state reachable from a fresh object by the hooks of
    the trainer ([configure_optimizers] among them): the flag of the
    wrapper and the flag of the model agree; the counter is not
    negative; and latent mode is on only if the counter exceeds
    [num_warmup_steps].  With [num_warmup_steps] infinite or NaN, latent
    mode is never on. *)
Theorem mode_invariants (s : TrainVQG) :
  reachable s ->
  latent_transformer s = model_latent_transformer s
  /\ 0 <= iter s
  /\ (latent_transformer s = true ->
      float_lt_int (num_warmup_steps (args s)) (iter s) = true)
  /\ (num_warmup_steps (args s) = PosInf \/ num_warmup_steps (args s) = NaN
      -> latent_transformer s = false).
Proof.
  intros Hr.
  enough (latent_transformer s = model_latent_transformer s
          /\ 0 <= iter s
          /\ (latent_transformer s = true ->
              float_lt_int (num_warmup_steps (args s)) (iter s) = true))
    as (H1 & H2 & H3).
  { repeat split; try assumption. intros Hw.
    destruct (latent_transformer s); [|reflexivity].
    specialize (H3 eq_refl). destruct Hw as [Hw|Hw]; rewrite Hw in H3;
      discriminate. }
  induction Hr as [a|s c Hr (I1 & I2 & I3)].
  - simpl. split; [reflexivity|]. split; [lia|discriminate].
  - destruct c as [b i|b i|bs|b i|].
    1:{ rewrite exec_state.
        pose proof (training_step_fields b i s) as (Fa & Fl & Fm & _ & Fi).
        cbv zeta in *. rewrite Fa, Fl, Fm, I1.
        assert (iter s <= iter (state_after (training_step b i s))) as Hi
          by (rewrite Fi; destruct (outcome _); lia).
        split; [reflexivity|]. split; [lia|].
        intros Hl. apply (float_lt_int_mono _ (iter s)); [exact Hi|].
        destruct (float_lt_int _ (iter s)); [reflexivity|].
        apply I3. rewrite I1. exact Hl. }
    all: match goal with
         | |- context [exec ?c ?s0] =>
             destruct (other_calls_keep_mode c s0) as (-> & -> & -> & ->);
               [discriminate|auto]
         end.
Qed.

(** X17: in every state reachable from a fresh object, each observation
    in the three score histories carries an iteration between 0 and the
    current value of the counter. *)
Theorem recorded_iterations_bounded (s : TrainVQG) :
  reachable s ->
  Forall (fun e => 0 <= e.1 <= iter s) (bleus s)
  /\ Forall (fun e => 0 <= e.1 <= iter s) (msjs s)
  /\ Forall (fun e => 0 <= e.1 <= iter s) (fbds s).
Proof.
  intros Hr.
  enough (0 <= iter s
          /\ Forall (fun e => 0 <= e.1 <= iter s)
                    (bleus s ++ msjs s ++ fbds s)) as (_ & H).
  { rewrite !Forall_app in H. exact H. }
  induction Hr as [a|s c Hr (I0 & IH)].
  - simpl. split; [lia|constructor].
  - pose proof (exec_iter_grows c s) as Hi.
    destruct (exec_histories c s) as (eb & em & ef & -> & -> & -> & Hn).
    split; [lia|].
    rewrite !Forall_app in *. destruct IH as (Hb & Hm & Hf).
    destruct Hn as (Nb & Nm & Nf).
    assert (forall l : list (Z * R),
              Forall (fun e => 0 <= e.1 <= iter s) l ->
              Forall (fun e => 0 <= e.1 <= iter (state_after (exec c s))) l)
      as Hold.
    { intros l Hl. eapply Forall_impl; [exact Hl|]. intros e He.
      simpl in *. lia. }
    assert (forall l : list (Z * R),
              Forall (fun e => e.1 = iter s) l ->
              Forall (fun e => 0 <= e.1 <= iter (state_after (exec c s))) l)
      as Hnew.
    { intros l Hl. eapply Forall_impl; [exact Hl|]. intros e He.
      simpl in *. lia. }
    repeat split; auto.
Qed.

End Invariants.

Section BestScore.

Lemma max_from_split (l : list (Z * R)) :
  forall best pre mid,
    Forall (fun x => (x.2 < best.2)%R) pre ->
    Forall (fun x => (x.2 <= best.2)%R) mid ->
    exists pre' post,
      pre ++ best :: mid ++ l = pre' ++ max_from best l :: post
      /\ Forall (fun x => (x.2 < (max_from best l).2)%R) pre'
      /\ Forall (fun x => (x.2 <= (max_from best l).2)%R) post.
Proof.
  induction l as [|x l IH]; intros best pre mid Hpre Hmid.
  - exists pre, mid. simpl. rewrite app_nil_r. auto.
  - simpl. destruct (Rlt_dec best.2 x.2) as [Hlt|Hge].
    + destruct (IH x (pre ++ best :: mid) []) as (pre' & post & E & H1 & H2).
      * rewrite Forall_app, Forall_cons. repeat split.
        -- eapply Forall_impl; [exact Hpre|]. intros y Hy. simpl in *. lra.
        -- exact Hlt.
        -- eapply Forall_impl; [exact Hmid|]. intros y Hy. simpl in *. lra.
      * constructor.
      * exists pre', post. split; [|auto].
        rewrite <- E. rewrite <- !app_assoc. reflexivity.
    + destruct (IH best pre (mid ++ [x])) as (pre' & post & E & H1 & H2).
      * exact Hpre.
      * rewrite Forall_app, Forall_singleton. split; [exact Hmid|lra].
      * exists pre', post. split; [|auto].
        rewrite <- E. rewrite <- !app_assoc. reflexivity.
Qed.

(** X18: [max(history, key=itemgetter(1))] raises exactly on the empty
    history; otherwise it returns an observation of the history whose
    value is at least every other value, and among equal best values the
    earliest recorded one: every observation before it has a strictly
    smaller value. *)
Theorem py_max_first_maximum (l : list (Z * R)) :
  (py_max l = inl ValueError <-> l = [])
  /\ forall best,
       py_max l = inr best ->
       exists pre post,
         l = pre ++ best :: post
         /\ Forall (fun x => (x.2 < best.2)%R) pre
         /\ Forall (fun x => (x.2 <= best.2)%R) post.
Proof.
  split.
  - destruct l; simpl; split; congruence.
  - intros best. destruct l as [|x l]; simpl; [discriminate|].
    intros [= <-].
    destruct (max_from_split l x [] []) as (pre & post & E & H1 & H2);
      [constructor|constructor|].
    exists pre, post. simpl in E. auto.
Qed.

End BestScore.

(** The history of the specification's example: the best of
    (10, 5.0), (20, 8.0), (30, 3.0) is (20, 8.0). *)
Lemma py_max_first_maximum_witness :
  py_max [(10, 5%R); (20, 8%R); (30, 3%R)] = inr (20, 8%R).
Proof.
  destruct (py_max_first_maximum [(10, 5%R); (20, 8%R); (30, 3%R)])
    as [_ H].
  destruct (py_max [(10, 5%R); (20, 8%R); (30, 3%R)]) as [e|best] eqn:E;
    [discriminate|].
  destruct (H best eq_refl) as (pre & post & El & Hpre & Hpost).
  f_equal.
  destruct pre as [|p1 pre]; simpl in El.
  { injection El as <- <-.
    apply Forall_cons in Hpost as [H1 _]. simpl in H1. lra. }
  injection El as <- El. destruct pre as [|p2 pre]; simpl in El.
  { injection El as <- <-. reflexivity. }
  injection El as <- El. apply Forall_cons in Hpre as [_ Hpre].
  apply Forall_cons in Hpre as [H2 _].
  destruct pre as [|p3 pre]; simpl in El.
  { injection El as <- <-. simpl in H2. lra. }
  injection El as <- El. destruct pre; discriminate.
Defined.

Section Dicts.

Context {V : Type}.

Lemma dict_set_keys (k k' : string) (v : V) (d : list (string * V)) :
  k' ∈ (dict_set k v d).*1 <-> k' = k \/ k' ∈ d.*1.
Proof.
  induction d as [|[k0 v0] d IH]; simpl.
  - rewrite list_elem_of_singleton. split; [auto|intros [H|H]; [auto|]].
    inversion H.
  - destruct (decide (k0 = k)) as [->|N]; simpl;
      rewrite !elem_of_cons; [tauto|]. rewrite IH. tauto.
Qed.

Lemma dict_set_NoDup (k : string) (v : V) (d : list (string * V)) :
  NoDup d.*1 -> NoDup (dict_set k v d).*1.
Proof.
  induction d as [|[k0 v0] d IH]; simpl; intros Hnd.
  - apply NoDup_singleton.
  - apply NoDup_cons in Hnd as [Hk Hnd].
    destruct (decide (k0 = k)) as [->|N]; simpl.
    + apply NoDup_cons. auto.
    + apply NoDup_cons. split; [|auto].
      rewrite dict_set_keys. intros [E|E]; [congruence|contradiction].
Qed.

Lemma dict_get_set (k k' : string) (v : V) (d : list (string * V)) :
  dict_get k' (dict_set k v d)
  = if decide (k = k') then Some v else dict_get k' d.
Proof.
  induction d as [|[k0 v0] d IH]; simpl.
  - destruct (decide (k = k')); reflexivity.
  - destruct (decide (k0 = k)) as [->|N]; simpl.
    + destruct (decide (k = k')); reflexivity.
    + destruct (decide (k0 = k')) as [->|N'].
      * rewrite decide_False by congruence. reflexivity.
      * exact IH.
Qed.

Lemma dict_get_elem (k : string) (v : V) (d : list (string * V)) :
  NoDup d.*1 -> (k, v) ∈ d -> dict_get k d = Some v.
Proof.
  induction d as [|[k0 v0] d IH]; intros Hnd Hin; [inversion Hin|].
  simpl in *. apply NoDup_cons in Hnd as [Hk Hnd].
  apply elem_of_cons in Hin as [E|Hin].
  - injection E as <- <-. rewrite decide_True by reflexivity. reflexivity.
  - destruct (decide (k0 = k)) as [->|N]; [|auto].
    exfalso. apply Hk. apply list_elem_of_fmap. exists (k, v). auto.
Qed.

Lemma dict_update_NoDup (d new : list (string * V)) :
  NoDup d.*1 -> NoDup (dict_update d new).*1.
Proof.
  revert d. induction new as [|[k v] new IH]; intros d Hnd; [exact Hnd|].
  unfold dict_update in *. simpl. apply IH, dict_set_NoDup, Hnd.
Qed.

Lemma dict_update_miss (k : string) (d new : list (string * V)) :
  k ∉ new.*1 -> dict_get k (dict_update d new) = dict_get k d.
Proof.
  revert d. induction new as [|[k0 v0] new IH]; intros d Hk; [reflexivity|].
  simpl in Hk. apply not_elem_of_cons in Hk as [N Hk].
  unfold dict_update in *. simpl. rewrite IH by exact Hk.
  rewrite dict_get_set, decide_False by congruence. reflexivity.
Qed.

Lemma dict_update_hit (k : string) (v : V) (d new : list (string * V)) :
  NoDup new.*1 -> (k, v) ∈ new -> dict_get k (dict_update d new) = Some v.
Proof.
  revert d. induction new as [|[k0 v0] new IH]; intros d Hnd Hin;
    [inversion Hin|].
  simpl in Hnd. apply NoDup_cons in Hnd as [Hk Hnd].
  unfold dict_update in *. simpl.
  apply elem_of_cons in Hin as [E|Hin].
  - injection E as <- <-.
    change (dict_get k (dict_update (dict_set k v d) new) = Some v).
    rewrite dict_update_miss by exact Hk.
    rewrite dict_get_set, decide_True by reflexivity. reflexivity.
  - apply IH; assumption.
Qed.

End Dicts.

Section Scores.

Context {DT : DataTypes} {W : Collaborators}.

Lemma prefix_msj_update (l : list (Z * R)) :
  prefix_msj l
  = dict_update [] (map (fun kv => ("msj_" +:+ pretty kv.1, kv.2)) l).
Proof.
  unfold prefix_msj, dict_update. generalize (@nil (string * R)).
  induction l as [|kv l IH]; intros d; [reflexivity|]. simpl. apply IH.
Qed.

Lemma msj_key_inj (n m : Z) :
  "msj_" +:+ pretty n = "msj_" +:+ pretty m -> n = m.
Proof.
  simpl. intros [= E]. exact (inj pretty n m E).
Qed.

Lemma msj_keys_NoDup (l : list (Z * R)) :
  NoDup l.*1 ->
  NoDup (map (fun kv => ("msj_" +:+ pretty kv.1, kv.2)) l).*1.
Proof.
  induction l as [|[n v] l IH]; simpl; intros Hnd; [constructor|].
  apply NoDup_cons in Hnd as [Hn Hnd]. apply NoDup_cons. split; [|auto].
  intros Hin. apply list_elem_of_fmap in Hin as ([k' v'] & E & Hin).
  apply list_elem_of_fmap in Hin as ([m w] & E' & Hin).
  simpl in *. injection E' as -> ->. apply msj_key_inj in E. subst m.
  apply Hn. apply list_elem_of_fmap. exists (n, w). auto.
Qed.

(** X19: the score mapping an evaluation returns has one entry per
    metric name whenever the two scorers return proper mappings; it has
    the entry [msj_<n>] with the Jaccard score of order [n] for every
    order the Jaccard scorer returns, and every other metric with the
    value the NLG scorer gave it. *)
Theorem all_scores_mapping (gts preds : list string) :
  let metrics := compute_metrics [gts] preds in
  let jaccard := get_jaccard_score gts preds in
  let scores := all_scores gts preds in
  NoDup metrics.*1 ->
  NoDup jaccard.*1 ->
  NoDup scores.*1
  /\ (forall n v, (n, v) ∈ jaccard ->
        dict_get ("msj_" +:+ pretty n) scores = Some v)
  /\ (forall key, (forall n, n ∈ jaccard.*1 -> key <> "msj_" +:+ pretty n) ->
        dict_get key scores = dict_get key metrics).
Proof.
  intros metrics jaccard scores Hm Hj. unfold scores, all_scores.
  fold metrics jaccard.
  set (named := map (fun kv => ("msj_" +:+ pretty kv.1, kv.2)) jaccard).
  assert (NoDup named.*1) as Hn by (apply msj_keys_NoDup, Hj).
  assert (NoDup (prefix_msj jaccard).*1) as Hp.
  { rewrite prefix_msj_update. apply dict_update_NoDup. constructor. }
  split; [apply dict_update_NoDup, Hm|]. split.
  - intros n v Hin. apply dict_update_hit; [exact Hp|].
    assert (dict_get ("msj_" +:+ pretty n) (prefix_msj jaccard) = Some v)
      as Hg.
    { rewrite prefix_msj_update. apply dict_update_hit; [exact Hn|].
      apply list_elem_of_fmap. exists (n, v). auto. }
    clear -Hg. induction (prefix_msj jaccard) as [|[k0 v0] d IH];
      [discriminate|].
    simpl in Hg. destruct (decide (k0 = "msj_" +:+ pretty n)) as [->|N].
    + injection Hg as ->. left.
    + right. auto.
  - intros key Hkey. apply dict_update_miss.
    intros Hin. apply list_elem_of_fmap in Hin as ([k' v'] & E & Hin).
    simpl in E. subst k'.
    assert (key ∈ named.*1) as Hin'.
    { clear -Hin. rewrite prefix_msj_update in Hin. fold named in Hin.
      revert Hin. unfold dict_update.
      assert (forall d : list (string * R),
                (key, v') ∈ foldl (fun d kv => dict_set kv.1 kv.2 d) d named ->
                key ∈ d.*1 \/ key ∈ named.*1) as Hgen.
      { induction named as [|[k w] nm IH]; intros d Hd; [left|].
        - apply list_elem_of_fmap. exists (key, v'). auto.
        - simpl in Hd. apply IH in Hd as [Hd|Hd].
          + apply dict_set_keys in Hd as [->|Hd]; [right; left|left; exact Hd].
          + right. right. exact Hd. }
      intros Hd. apply Hgen in Hd as [Hd|Hd]; [inversion Hd|exact Hd]. }
    apply list_elem_of_fmap in Hin' as ([k2 v2] & E2 & Hin2).
    apply list_elem_of_fmap in Hin2 as ([n w] & E3 & Hin3).
    simpl in *. injection E3 as -> ->. subst key.
    apply (Hkey n); [|reflexivity].
    apply list_elem_of_fmap. exists (n, w). auto.
Qed.

End Scores.

Section Words.

Lemma append_cons (c : Ascii.ascii) (a b : string) :
  String c a +:+ b = String c (a +:+ b).
Proof. reflexivity. Qed.

Lemma append_nil_r (a : string) : a +:+ "" = a.
Proof.
  induction a as [|c a IH]; [reflexivity|]. rewrite append_cons, IH.
  reflexivity.
Qed.

Lemma append_assoc (a b c : string) : (a +:+ b) +:+ c = a +:+ (b +:+ c).
Proof.
  induction a as [|x a IH]; [reflexivity|]. rewrite !append_cons, IH.
  reflexivity.
Qed.

Lemma space_free_app (a b : string) :
  space_free (a +:+ b) = space_free a && space_free b.
Proof.
  induction a as [|c a IH]; [reflexivity|]. rewrite append_cons. simpl.
  rewrite IH, andb_assoc. reflexivity.
Qed.

Lemma flush_words cur acc :
  space_free cur = true -> Forall is_word acc -> Forall is_word (PyStr.flush cur acc).
Proof.
  intros Hc Ha. destruct cur as [|c cur]; simpl; [exact Ha|].
  constructor; [split; [discriminate|exact Hc]|exact Ha].
Qed.

Lemma split_go_words (s : string) :
  forall cur, space_free cur = true -> Forall is_word (PyStr.split_go cur s).
Proof.
  induction s as [|c s IH]; intros cur Hc; simpl.
  - apply flush_words; [exact Hc|constructor].
  - destruct (PyStr.is_space c) eqn:Es.
    + apply flush_words; [exact Hc|]. apply IH. reflexivity.
    + apply IH. rewrite space_free_app, Hc. simpl. rewrite Es. reflexivity.
Qed.

Lemma split_go_cons cur c rest :
  PyStr.split_go cur (String c rest)
  = if PyStr.is_space c then PyStr.flush cur (PyStr.split_go "" rest)
    else PyStr.split_go (cur +:+ String c "") rest.
Proof. reflexivity. Qed.

(** Reading a white-space-free word moves it into the current word. *)
Lemma split_go_word (w : string) :
  forall cur rest,
    space_free w = true ->
    PyStr.split_go cur (w +:+ rest) = PyStr.split_go (cur +:+ w) rest.
Proof.
  induction w as [|c w IH]; intros cur rest Hw.
  - rewrite append_nil_r. reflexivity.
  - simpl in Hw. apply andb_true_iff in Hw as [Hc Hw].
    apply negb_true_iff in Hc. rewrite append_cons, split_go_cons.
    rewrite Hc, IH by exact Hw.
    rewrite append_assoc. reflexivity.
Qed.

Lemma split_join_words (l : list string) :
  Forall is_word l -> PyStr.split (PyStr.join " " l) = l.
Proof.
  unfold PyStr.split, PyStr.join.
  induction l as [|w l IH]; intros Hl; [reflexivity|].
  apply Forall_cons in Hl as [[Hne Hsf] Hl].
  destruct l as [|y l].
  - simpl. rewrite <- (append_nil_r w) at 1.
    rewrite split_go_word by exact Hsf. simpl.
    destruct w; [contradiction|reflexivity].
  - change (String.concat " " (w :: y :: l))
      with (w +:+ String (Ascii.Ascii false false false false false true false false)
                     (String.concat " " (y :: l))).
    rewrite split_go_word by exact Hsf. rewrite split_go_cons.
    change (PyStr.is_space (Ascii.Ascii false false false false false true false false))
      with true. cbv iota.
    rewrite (IH Hl). destruct w; [contradiction|reflexivity].
Qed.

Lemma join_empty_iff (l : list string) :
  Forall is_word l -> (PyStr.join " " l = "" <-> l = []).
Proof.
  intros Hl. split; [|intros ->; reflexivity].
  intros E. rewrite <- (split_join_words l Hl), E. reflexivity.
Qed.

(** X20: [str.split()] yields words that are not empty and hold no white
    space, and it undoes [" ".join]: joining such words with a space and
    splitting again gives back the same words. *)
Theorem split_join_round_trip :
  (forall s, Forall is_word (PyStr.split s))
  /\ (forall l, Forall is_word l -> PyStr.split (PyStr.join " " l) = l)
  /\ (forall s, PyStr.split (PyStr.join " " (PyStr.split s)) = PyStr.split s).
Proof.
  split; [intros s; apply split_go_words; reflexivity|].
  split; [apply split_join_words|].
  intros s. apply split_join_words, split_go_words. reflexivity.
Qed.

Lemma truncate_at_sublist sep (l : list string) (P : string -> Prop) :
  Forall P l -> Forall (fun t => P t /\ t <> sep) (truncate_at sep l).
Proof.
  induction 1 as [|x l Hx _ IH]; simpl; [constructor|].
  destruct (decide (x = sep)); [constructor|]. constructor; auto.
Qed.

Lemma truncate_at_none sep (l : list string) :
  Forall (fun t => t <> sep) l -> truncate_at sep l = l.
Proof.
  induction 1 as [|x l Hx _ IH]; simpl; [reflexivity|].
  rewrite decide_False by exact Hx. now rewrite IH.
Qed.

Lemma filter_all (P : string -> Prop) `{forall x, Decision (P x)}
    (l : list string) :
  Forall P l -> filter P l = l.
Proof.
  induction 1 as [|x l Hx _ IH]; [reflexivity|].
  rewrite filter_cons, decide_True by exact Hx. now rewrite IH.
Qed.

(** The tokens [filter_special_tokens] keeps. *)
Lemma kept_tokens {T} (tok : BertTokenizer T) (d : string) :
  let kept := filter (fun t => t ∉ all_special_tokens tok)
                     (truncate_at (sep_token tok) (PyStr.split d)) in
  filter_special_tokens tok d = PyStr.join " " kept
  /\ Forall (fun t => is_word t /\ t <> sep_token tok
                      /\ t ∉ all_special_tokens tok) kept.
Proof.
  intros kept. split; [apply filter_special_tokens_spec|].
  unfold kept. apply Forall_forall. intros t Ht.
  apply list_elem_of_filter in Ht as [Hsp Ht].
  pose proof (truncate_at_sublist (sep_token tok) (PyStr.split d) is_word
                (split_go_words d "" eq_refl)) as Hall.
  rewrite Forall_forall in Hall. destruct (Hall t Ht). auto.
Qed.

(** X21: the tokens of a filtered string are exactly the tokens kept:
    none is a special token, none is the separator, each is a non-empty
    word; the filtered string is empty exactly when no token was kept;
    and filtering is idempotent. *)
Theorem filter_special_tokens_clean {T} (tok : BertTokenizer T) (d : string) :
  let out := filter_special_tokens tok d in
  PyStr.split out
  = filter (fun t => t ∉ all_special_tokens tok)
           (truncate_at (sep_token tok) (PyStr.split d))
  /\ Forall (fun t => (t ∉ all_special_tokens tok) /\ t <> sep_token tok
                      /\ is_word t) (PyStr.split out)
  /\ (out = "" <-> PyStr.split out = [])
  /\ PyStr.join " " (PyStr.split out) = out
  /\ filter_special_tokens tok out = out.
Proof.
  cbv zeta. destruct (kept_tokens tok d) as [E Hk]. cbv zeta in *.
  set (kept := filter _ _) in *.
  assert (Forall is_word kept) as Hw.
  { eapply Forall_impl; [exact Hk|]. intros t (H1 & _). exact H1. }
  rewrite E, (split_join_words kept Hw).
  split; [reflexivity|]. split.
  { eapply Forall_impl; [exact Hk|]. intros t (H1 & H2 & H3). auto. }
  split; [apply join_empty_iff, Hw|]. split; [reflexivity|].
  rewrite filter_special_tokens_spec. unfold filter_spec.
  rewrite (split_join_words kept Hw), truncate_at_none, filter_all.
  - reflexivity.
  - eapply Forall_impl; [exact Hk|]. intros t (_ & _ & H3). exact H3.
  - eapply Forall_impl; [exact Hk|]. intros t (_ & H2 & _). exact H2.
Qed.

End Words.

Section Loop.

Context {DT : DataTypes} {W : Collaborators}.

Lemma filtered_blank_iff {T} (tok : BertTokenizer T) (d : string) :
  PyStr.split (filter_special_tokens tok d) = []
  <-> filter_special_tokens tok d = "".
Proof.
  destruct (kept_tokens tok d) as [E Hk]. cbv zeta in *.
  set (kept := filter _ _) in *.
  assert (Forall is_word kept) as Hw.
  { eapply Forall_impl; [exact Hk|]. intros t (H1 & _). exact H1. }
  rewrite E, (split_join_words kept Hw). symmetry.
  apply join_empty_iff, Hw.
Qed.

Lemma decode_example_returns lim (batch : Batch) dis dqs i sentence :
  (exists r, decode_example lim batch dis dqs i sentence = inr r)
  <-> example_ok lim batch dis dqs i.
Proof.
  unfold decode_example, example_ok, py_getitem.
  destruct (dis !! i) as [di|]; [|split; [intros [r Hr]|intros (di & Hd & _)];
                                  discriminate].
  destruct (dqs !! i) as [dq|];
    [|split; [intros [r Hr]; discriminate
             |intros (di' & _ & [dq Hq] & _); discriminate]].
  destruct (Z.of_nat i <? lim) eqn:Hlim.
  - apply Z.ltb_lt in Hlim.
    destruct (image_ids batch !! i) as [id|].
    + destruct (PyStr.split (filter_special_tokens tokenizer di))
        as [|c rest] eqn:Es.
      * apply filtered_blank_iff in Es.
        split; [intros [r Hr]; discriminate|].
        intros (di' & [= <-] & _ & Hp). destruct (Hp Hlim) as [_ Hne].
        contradiction.
      * split; [intros _|intros _; eexists; reflexivity].
        exists di. split; [reflexivity|]. split; [eauto|].
        intros _. split; [eauto|]. intros Hb.
        apply filtered_blank_iff in Hb. congruence.
    + split; [intros [r Hr]; discriminate|].
      intros (di' & _ & _ & Hp). destruct (Hp Hlim) as [[id Hid] _].
      discriminate.
  - apply Z.ltb_ge in Hlim. split; [intros _|intros _; eexists; reflexivity].
    exists di. split; [reflexivity|]. split; [eauto|]. intros Hlt. lia.
Qed.

Lemma decode_examples_returns lim (batch : Batch) dis dqs sentences :
  forall i gts preds,
    (exists r, decode_examples lim batch dis dqs i sentences gts preds = inr r)
    <-> forall j, (j < length sentences)%nat ->
                  example_ok lim batch dis dqs (i + j).
Proof.
  induction sentences as [|sentence rest IH]; intros i gts preds.
  - simpl. split; [intros _ j Hj; lia|intros _; eexists; reflexivity].
  - simpl.
    pose proof (decode_example_returns lim batch dis dqs i sentence) as Hex.
    destruct (decode_example lim batch dis dqs i sentence)
      as [e|[[rq gq] pr]].
    + split; [intros [r Hr]; discriminate|].
      intros Hall. specialize (Hall 0%nat ltac:(lia)).
      rewrite Nat.add_0_r in Hall. apply Hex in Hall as [r Hr]. discriminate.
    + rewrite IH. split.
      * intros Hall [|j] Hj.
        -- rewrite Nat.add_0_r. apply Hex. eexists. reflexivity.
        -- replace (i + S j)%nat with (S i + j)%nat by lia.
           apply Hall. lia.
      * intros Hall j Hj. replace (S i + j)%nat with (i + S j)%nat by lia.
        apply Hall. lia.
Qed.

(** X22: the precondition of [decode_and_print], in full: the call
    raises [IndexError] exactly when not every decoded sentence has a
    decoded input and a decoded question at its position and, among the
    first [print_lim] of them, an image id and an input that does not
    filter to the empty string.  When it does, the object is unchanged. *)
Theorem decode_and_print_index_error_iff (b : Batch) (lim : Z) (val : bool)
    (s : TrainVQG) :
  let n := length (decode_greedy (model_latent_transformer s) b) in
  let all_ok :=
    forall j, (j < n)%nat ->
              example_ok lim b (decoded_inputs b) (decoded_questions b) j in
  (outcome (decode_and_print b lim val s) = inl IndexError <-> ~ all_ok)
  /\ (~ all_ok -> decode_and_print b lim val s = (s, inl IndexError)).
Proof.
  intros n all_ok.
  pose proof (decode_examples_returns lim b (decoded_inputs b)
                (decoded_questions b)
                (decode_greedy (model_latent_transformer s) b) 0 [] [])
    as Hret.
  simpl in Hret. fold n in Hret. fold all_ok in Hret.
  rewrite decode_and_print_eq.
  destruct (decode_examples _ _ _ _ _ _ _ _) as [e|[gts preds]] eqn:E.
  - apply decode_examples_error in E as ->.
    assert (~ all_ok) as Hn.
    { intros Hall. apply Hret in Hall as [r Hr]. discriminate. }
    split; [split; auto|auto].
  - assert (all_ok) as Hall by (apply Hret; eexists; reflexivity).
    split; [|intros Hn; contradiction].
    split; [|intros Hn; contradiction].
    cbv zeta. unfold outcome.
    destruct (py_max (bleus _)) as [eb|] eqn:Eb.
    { destruct (bleus _); [injection Eb as <-|]; discriminate. }
    destruct (py_max (msjs _)) as [em|] eqn:Em; [|discriminate].
    destruct (msjs _); [injection Em as <-|]; discriminate.
Qed.

End Loop.

(** ** Instances of the further properties *)

Lemma kl_weight_between_half_and_one_witness :
  let s := set_iter 1 (init (Example.config 0 12)) in
  exists beta : R,
    calculate_losses 2 (Some 1%R) r_default s
      = (s, inr ((2 + beta * 1)%R, 2%R, 1%R))
    /\ (1 / 2 <= beta <= 1)%R.
Proof.
  intros s.
  apply (kl_weight_between_half_and_one s 2 1 r_default);
    split; reflexivity || discriminate.
Defined.

(** Eight total steps: iterations 0 and 2 are both cycle boundaries. *)
Lemma schedule_repeats_every_quarter_witness :
  let s := init (Example.config 0 8) in
  let s' := set_iter 2 s in
  outcome (calculate_losses 2 (Some 1%R) r_default s')
  = outcome (calculate_losses 2 (Some 1%R) r_default s).
Proof.
  intros s s'.
  apply (schedule_repeats_every_quarter s s' 2); reflexivity || discriminate.
Defined.

(** The default arguments, three training steps. *)
Lemma plain_within_warmup_witness :
  let bs := [Example.good_batch; Example.good_batch; Example.good_batch] in
  let s' := state_after
              (run_steps (training_step (W := Example.world)) bs 0
                 (init default_args)) in
  latent_transformer s' = false /\ optimizers_built s' = 0%nat.
Proof.
  intros bs s'.
  destruct (plain_within_warmup (W := Example.world) default_args
              (inject_Z 35000) bs 0) as (H1 & _ & H3).
  - reflexivity.
  - vm_compute. discriminate.
  - auto.
Defined.

Lemma latent_after_warmup_plus_one_witness :
  let bs := [Example.good_batch; Example.good_batch; Example.good_batch] in
  latent_transformer
    (state_after (run_steps (training_step (W := Example.world)) bs 0
                    (init (Example.config 1 4)))) = true.
Proof.
  intros bs.
  destruct (latent_after_warmup_plus_one (W := Example.world)
              (Example.config 1 4) 1 bs 0) as [H _];
    [reflexivity|lia|discriminate|reflexivity|reflexivity|].
  apply H. vm_compute. reflexivity.
Defined.

Lemma validation_step_raises_witness :
  outcome (validation_step (W := Example.world) Example.good_batch 0
             (init (Example.config 0 0)))
  = inr Example.good_batch.
Proof.
  destruct (validation_step_raises (W := Example.world) Example.good_batch 0
              (init (Example.config 0 0))) as [_ H].
  - apply reachable_init.
  - destruct H as [_ H]; [reflexivity..|]. apply H. left. reflexivity.
Defined.

Lemma validation_step_appends_witness :
  let s := init (Example.config 0 4) in
  val_losses
    (state_after (validation_step (W := Example.world) Example.good_batch 0 s))
    !! "kl loss" = Some [0%R].
Proof.
  intros s.
  destruct (validation_step_appends (W := Example.world) Example.good_batch 0
              s [] [] [] 2 2 0) as (_ & _ & H & _);
    [reflexivity|reflexivity|reflexivity|reflexivity|exact H].
Defined.

Lemma validation_run_counts_witness :
  let s := init (Example.config 5 4) in
  let bs := [Example.good_batch; Example.blank_batch] in
  val_count "total loss"
    (state_after (run_steps (validation_step (W := Example.world)) bs 0 s))
  = 2%nat.
Proof.
  intros s bs.
  destruct (validation_run_counts (W := Example.world) bs 0 s bs) as [_ H].
  - apply (reachable_val_keys (W := Example.world)), reachable_init.
  - vm_compute. reflexivity.
  - rewrite H by auto. reflexivity.
Defined.

Lemma validation_epoch_end_logs_witness :
  trace Example.validated
  = [Log "val_Bleu_4" (1 / 2 * 100)%R; Log "val_msj_4" (1 / 4 * 100)%R].
Proof.
  destruct (validation_epoch_end_logs (W := Example.world)
              Example.good_batch [] (init (Example.config 0 4))
              Example.validated) as (scores & Hs & Ht & _).
  - vm_compute. reflexivity.
  - rewrite Ht. vm_compute in Hs. injection Hs as <-. reflexivity.
Defined.

Lemma validation_records_watched_scores_witness :
  bleus Example.validated = [(0, (1 / 2 * 100)%R)].
Proof.
  destruct (validation_records_watched_scores (W := Example.world)
              Example.good_batch 20 (init (Example.config 0 4))
              ["cat"] ["what is it"]) as (Hb & _).
  - vm_compute. reflexivity.
  - transitivity
      (bleus (state_after
                (decode_and_print (W := Example.world) Example.good_batch 20
                   true (init (Example.config 0 4))))).
    + vm_compute. reflexivity.
    + rewrite Hb. vm_compute. reflexivity.
Defined.

Lemma validation_pass_returns_iff_witness :
  outcome (decode_and_print (W := Example.world) Example.good_batch 20 true
             (init (Example.config 0 4)))
  = inr [("Bleu_4", (1 / 2)%R); ("msj_4", (1 / 4)%R)].
Proof.
  destruct (validation_pass_returns_iff (W := Example.world)
              Example.good_batch 20 (init (Example.config 0 4))
              ["cat"] ["what is it"]) as [H _].
  - vm_compute. reflexivity.
  - rewrite H; [reflexivity|].
    split; right; apply (bool_decide_unpack _); vm_compute; exact I.
Defined.

Lemma mode_invariants_witness :
  latent_transformer Example.validated
  = model_latent_transformer Example.validated.
Proof.
  destruct (mode_invariants (W := Example.world) Example.validated)
    as (H & _).
  - apply (reachable_call (W := Example.world) _
             (ValidationEpochEnd [Example.good_batch])).
    apply reachable_init.
  - exact H.
Defined.

Lemma recorded_iterations_bounded_witness :
  Forall (fun e => 0 <= e.1 <= iter Example.validated)
         (bleus Example.validated).
Proof.
  destruct (recorded_iterations_bounded (W := Example.world)
              Example.validated) as (H & _).
  - apply (reachable_call (W := Example.world) _
             (ValidationEpochEnd [Example.good_batch])).
    apply reachable_init.
  - exact H.
Defined.

Lemma all_scores_mapping_witness :
  dict_get "msj_4"
    (all_scores (W := Example.world) ["cat"] ["what is it"])
  = Some (1 / 4)%R.
Proof.
  destruct (all_scores_mapping (W := Example.world) ["cat"] ["what is it"])
    as (_ & H & _).
  - apply (bool_decide_unpack _). vm_compute. exact I.
  - apply (bool_decide_unpack _). vm_compute. exact I.
  - apply (H 4). left.
Defined.

Section StepLog.

Context {DT : DataTypes} {W : Collaborators}.


End StepLog.

Lemma iter_counts_training_steps_witness :
  iter (state_after
          (run_steps (training_step (W := Example.world))
             [Example.good_batch; Example.good_batch] 0
             (init (Example.config 5 4)))) = 2.
Proof.
  destruct (iter_counts_training_steps (W := Example.world)
              [Example.good_batch; Example.good_batch] 0
              (init (Example.config 5 4))) as (_ & _ & H).
  destruct (H [2%R; 2%R]) as [Hi _]; [vm_compute; reflexivity|].
  rewrite Hi. reflexivity.
Defined.

(** A test step on a fresh object raises and leaves it as it was. *)
Lemma test_step_only_accumulates_witness :
  state_after (test_step (W := Example.world) Example.good_batch 0
                 (init (Example.config 0 4)))
  = init (Example.config 0 4).
Proof.
  destruct (test_step_only_accumulates (W := Example.world)
              Example.good_batch 0 (init (Example.config 0 4)))
    as (_ & _ & _ & _ & _ & _ & _ & _ & _ & H).
  apply (H ValueError). vm_compute. reflexivity.
Defined.

(** An epoch end over a batch whose input is blank raises and keeps the
    accumulated losses. *)
Lemma validation_epoch_end_failure_witness :
  let s := state_after
             (validation_step (W := Example.world) Example.good_batch 0
                (init (Example.config 5 4))) in
  val_losses s !! "total loss" = Some [2%R]
  /\ val_losses
       (state_after
          (validation_epoch_end (W := Example.world) [Example.blank_batch] s))
     = val_losses s.
Proof.
  intros s. split; [vm_compute; reflexivity|].
  destruct (validation_epoch_end_failure (W := Example.world)
              [Example.blank_batch] s) as (_ & _ & H).
  destruct (H IndexError) as (_ & Hv & _); [vm_compute; reflexivity|].
  exact Hv.
Defined.

Lemma split_join_round_trip_witness :
  PyStr.split (PyStr.join " " ["cat"; "dog"]) = ["cat"; "dog"].
Proof.
  destruct split_join_round_trip as (_ & H & _).
  apply H. repeat constructor; discriminate.
Defined.

Lemma decode_and_print_index_error_iff_witness :
  decode_and_print (W := Example.world) Example.blank_batch 20 true
    Example.validated
  = (Example.validated, inl IndexError).
Proof.
  destruct (decode_and_print_index_error_iff (W := Example.world)
              Example.blank_batch 20 true Example.validated) as [_ H].
  apply H. intros Hall.
  destruct (Hall 0%nat) as (di & Hd & _ & Hp); [vm_compute; lia|].
  vm_compute in Hd. injection Hd as <-.
  destruct Hp as [_ Hne]; [lia|]. apply Hne. reflexivity.
Defined.

